(** * DataBase_Backend: the HTTP handlers of [server.js] over a model of
    the Mongoose collections they use.

    [server.js] declares two Mongoose schemas ([userSchema],
    [paymentSchema]) and six JSON routes.  Every route reads fields of
    [req.body] or [req.params], performs one or two operations on a
    collection and answers with a status code and a JSON body.

    The development has three layers, in the order of the file:

    - JavaScript values as [express.json()] produces them, with the
      truthiness test [!v] and [typeof v] the handlers apply to them;
    - the two collections and the Mongoose operations the handlers call
      ([findOne], [new]/[save], [findOneAndUpdate], [find],
      [findByIdAndUpdate]), written as state-passing functions that may
      throw;
    - the handlers themselves, one definition per route, each following
      the source statement by statement.

    Numbers.  A JavaScript number is an IEEE-754 double; it is a [float]
    here, a primitive binary64 number, and [$inc] adds with the addition
    of doubles, which rounds to the nearest double.  (The store keeps a
    sum of two 32-bit integers as an integer; that is the number the
    addition of doubles gives, which is exact below [2^53].)  The
    conversions between numbers and strings, [Number(s)] and
    [toString()], are written out over [Z].

    Mongoose.  The operations follow Mongoose 6 and later: the casts of
    [lib/cast/string.js], [lib/cast/number.js] and
    [lib/cast/objectid.js], validation of a new document in [save()],
    the unique indexes the schemas declare, and updates from which
    [undefined] keys are stripped.  The version key [__v], which none of
    the routes changes, is left out of the documents.  A query without a
    sort returns the documents in an order the source does not fix; a
    listing takes that order as a parameter.  What is not covered:
    arrays and objects in a query filter (query selectors among them),
    identifiers of twelve characters, and numeric strings with
    characters outside ASCII.  An operation that would need one of these
    answers [Beyond], and nothing is proved about it; [covered] tells
    the requests that never do. *)

From Stdlib Require Import Ascii Floats.
From stdpp Require Import base numbers list strings pretty.

#[local] Set Warnings "-register-all".

Local Open Scope Z_scope.

(** ** JavaScript values *)

(** A value of a parsed JSON body, or [undefined] for a property the
    body does not have. *)
Inductive jsval : Type :=
| JUndefined
| JNull
| JBool (b : bool)
| JNum (n : float)
| JStr (s : string)
| JArr (items : list jsval)
| JObj (props : list (string * jsval)).

(** The own properties of a parsed JSON object, each key once:
    [req.body], which is the empty object when the request has no JSON
    body. *)
Definition jsobj : Type := list (string * jsval).

(** [o.k], as read by the destructuring [const { k } = o]. *)
Fixpoint get (k : string) (o : jsobj) : jsval :=
  match o with
  | [] => JUndefined
  | (k', v) :: o' => if bool_decide (k = k') then v else get k o'
  end.

(** [!!v]: the falsy numbers are [0], [-0] and [NaN]. *)
Definition truthy (v : jsval) : bool :=
  match v with
  | JUndefined | JNull => false
  | JBool b => b
  | JNum n => negb (PrimFloat.eqb n 0 || PrimFloat.is_nan n)
  | JStr s => negb (bool_decide (s = ""))
  | JArr _ | JObj _ => true
  end.

(** [typeof v] *)
Definition typeof (v : jsval) : string :=
  match v with
  | JUndefined => "undefined"
  | JNull => "object"
  | JBool _ => "boolean"
  | JNum _ => "number"
  | JStr _ => "string"
  | JArr _ | JObj _ => "object"
  end.

(** ** Numbers *)

(** A number is a double: a [float].  Addition, comparison and the
    literals are those of the kernel.  The two conversions the casts
    need, from a string to a number and back, are computed on the exact
    value of a double, [m × 2^e] for integers [m] and [e]. *)

(** [10^p] and [2^p], and 1 for a negative [p]. *)
Definition pow10 (p : Z) : Z := 10 ^ Z.max 0 p.
Definition pow2 (p : Z) : Z := 2 ^ Z.max 0 p.

(** The double nearest to the rational [num / den] (with [0 ≤ num] and
    [0 < den]), ties to the even significand, with the sign [neg]. *)
Definition round_to_double (neg : bool) (num den : Z) : float :=
  let e0 := Z.log2 num - Z.log2 den - 52 in
  let e1 := if (num * pow2 (- e0)) / (den * pow2 e0) <? 2 ^ 52
            then e0 - 1 else e0 in
  let e := Z.max e1 (-1074) in
  let n := num * pow2 (- e) in
  let d := den * pow2 e in
  let q := n / d in
  let r := n mod d in
  let q := if (d <? 2 * r) || ((2 * r =? d) && Z.odd q) then q + 1 else q in
  if q =? 0 then SF2Prim (S754_zero neg)
  else if 1024 <? Z.log2 q + 1 + e then SF2Prim (S754_infinity neg)
  else SF2Prim (S754_finite neg (Z.to_pos q) e).

(** *** [Number(s)] *)

Definition is_space (c : ascii) : bool :=
  let n := N_of_ascii c in
  ((9 <=? n)%N && (n <=? 13)%N) || (n =? 32)%N.

Fixpoint trim_start (s : string) : string :=
  match s with
  | String c s' => if is_space c then trim_start s' else s
  | EmptyString => s
  end.

Definition trim (s : string) : string :=
  String.rev (trim_start (String.rev (trim_start s))).

(** The value of a digit: [0-9], [a-f], [A-F]. *)
Definition hex_digit (c : ascii) : option N :=
  let n := N_of_ascii c in
  if (48 <=? n)%N && (n <=? 57)%N then Some (n - 48)%N          (* 0-9 *)
  else if (97 <=? n)%N && (n <=? 102)%N then Some (n - 87)%N    (* a-f *)
  else if (65 <=? n)%N && (n <=? 70)%N then Some (n - 55)%N     (* A-F *)
  else None.

(** The digits in [radix] at the head of [s]: their value after [acc],
    their number after [count], and the rest of [s]. *)
Fixpoint digits (radix : N) (acc : Z) (count : Z) (s : string)
  : Z * Z * string :=
  match s with
  | EmptyString => (acc, count, s)
  | String c s' =>
      match hex_digit c with
      | Some d =>
          if (d <? radix)%N
          then digits radix (Z.of_N radix * acc + Z.of_N d) (count + 1) s'
          else (acc, count, s)
      | None => (acc, count, s)
      end
  end.

(** [0x], [0o] and [0b] literals: at least one digit, nothing after. *)
Definition radix_literal (radix : N) (s : string) : float :=
  match digits radix 0 0 s with
  | (n, count, EmptyString) =>
      if 0 <? count then round_to_double false n 1 else nan
  | _ => nan
  end.

(** The value [m × 10^p] of a decimal literal. *)
Definition decimal_value (neg : bool) (m p : Z) : float :=
  if m =? 0 then SF2Prim (S754_zero neg)
  else
    let magnitude := Z.of_nat (String.length (pretty m)) + p in
    if 310 <? magnitude then SF2Prim (S754_infinity neg)
    else if magnitude <? -330 then SF2Prim (S754_zero neg)
    else round_to_double neg (m * pow10 p) (pow10 (- p)).

(** The exponent part that may end a decimal literal with significand
    [m × 10^p]. *)
Definition exponent_part (neg : bool) (m p : Z) (s : string) : float :=
  match s with
  | EmptyString => decimal_value neg m p
  | String c s' =>
      if bool_decide (c = "e"%char) || bool_decide (c = "E"%char) then
        let '(minus, s'') :=
          match s' with
          | String "-"%char r => (true, r)
          | String "+"%char r => (false, r)
          | _ => (false, s')
          end in
        match digits 10 0 0 s'' with
        | (x, count, EmptyString) =>
            if 0 <? count
            then decimal_value neg m (p + (if minus then - x else x))
            else nan
        | _ => nan
        end
      else nan
  end.

(** A decimal literal after its sign: digits, a fraction, an exponent. *)
Definition unsigned_decimal (neg : bool) (s : string) : float :=
  if bool_decide (s = "Infinity") then SF2Prim (S754_infinity neg)
  else
    let '(a, na, s1) := digits 10 0 0 s in
    match s1 with
    | String "."%char s2 =>
        let '(m, n, s3) := digits 10 a na s2 in
        if 0 <? n then exponent_part neg m (na - n) s3 else nan
    | _ => if 0 <? na then exponent_part neg a 0 s1 else nan
    end.

(** [Number(s)] for a string [s] of ASCII characters: white space is
    trimmed, the empty string is 0, and what is no numeric literal is
    [NaN]. *)
Definition StringToNumber (s : string) : float :=
  match trim s with
  | EmptyString => 0%float
  | String "0"%char (String "x"%char r) | String "0"%char (String "X"%char r) =>
      radix_literal 16 r
  | String "0"%char (String "o"%char r) | String "0"%char (String "O"%char r) =>
      radix_literal 8 r
  | String "0"%char (String "b"%char r) | String "0"%char (String "B"%char r) =>
      radix_literal 2 r
  | String "-"%char r => unsigned_decimal true r
  | String "+"%char r => unsigned_decimal false r
  | r => unsigned_decimal false r
  end.

(** *** [Number.prototype.toString()] *)

(** The numeral with [k] digits nearest to [V / D], when one lies in the
    rounding interval from [L / D] to [H / D] of the double; [n] is such
    that [10^(n-1) ≤ V / D < 10^n].  The result [(s, q)] stands for
    [s × 10^q]. *)
Definition numeral (inclusive : bool) (L V H D n k : Z) : option (Z * Z) :=
  let p := k - n in
  let up := pow10 p in
  let dn := D * pow10 (- p) in
  let s_lo := (V * up) / dn in
  let s_hi := s_lo + 1 in
  let inside c :=
    if inclusive then (L * up <=? c * dn) && (c * dn <=? H * up)
    else (L * up <? c * dn) && (c * dn <? H * up) in
  match inside s_lo, inside s_hi with
  | true, true =>
      let d_lo := V * up - s_lo * dn in
      let d_hi := s_hi * dn - V * up in
      if d_lo <? d_hi then Some (s_lo, - p)
      else if d_hi <? d_lo then Some (s_hi, - p)
      else Some (if Z.even s_lo then s_lo else s_hi, - p)
  | true, false => Some (s_lo, - p)
  | false, true => Some (s_hi, - p)
  | false, false => None
  end.

(** The shortest numeral: the first [k] that has one. *)
Fixpoint shortest (fuel : nat) (inclusive : bool) (L V H D n k : Z) : Z * Z :=
  match numeral inclusive L V H D n k, fuel with
  | Some r, _ => r
  | None, S fuel' => shortest fuel' inclusive L V H D n (k + 1)
  | None, O => (V * pow10 (k - n) / (D * pow10 (n - k)), n - k)
  end.

(** The [n] with [10^(n-1) ≤ V / D < 10^n], from an estimate. *)
Definition below_pow10 (V D n : Z) : bool := V * pow10 (- n) <? D * pow10 n.

Fixpoint upwards (fuel : nat) (V D n : Z) : Z :=
  match fuel with
  | S fuel' => if below_pow10 V D n then n else upwards fuel' V D (n + 1)
  | O => n
  end.

Fixpoint downwards (fuel : nat) (V D n : Z) : Z :=
  match fuel with
  | S fuel' => if below_pow10 V D (n - 1) then downwards fuel' V D (n - 1) else n
  | O => n
  end.

Definition decade (V D : Z) : Z :=
  let n0 := (Z.log2 V - Z.log2 D) * 1233 / 4096 in
  downwards 8 V D (upwards 8 V D n0).

(** A numeral without trailing zeros. *)
Fixpoint strip_zeros (fuel : nat) (s q : Z) : Z * Z :=
  match fuel with
  | S fuel' => if s mod 10 =? 0 then strip_zeros fuel' (s / 10) (q + 1) else (s, q)
  | O => (s, q)
  end.

(** The digits [s] and the position [n] of the decimal point that
    [toString] prints for the double [m × 2^e], [0 < m]: the shortest
    numeral [s × 10^(n-k)], [k] the number of digits of [s], that reads
    back as this double, and among those the nearest to it. *)
Definition shortest_decimal (m e : Z) : Z * Z :=
  let narrow := (m =? 2 ^ 52) && (-1074 <? e) in
  let L := (4 * m - (if narrow then 1 else 2)) * pow2 (e - 2) in
  let V := 4 * m * pow2 (e - 2) in
  let H := (4 * m + 2) * pow2 (e - 2) in
  let D := pow2 (2 - e) in
  let n := decade V D in
  let '(s, q) := shortest 17 (Z.even m) L V H D n 1 in
  let '(s, q) := strip_zeros 20 s q in
  (s, q + Z.of_nat (String.length (pretty s))).

Fixpoint zeros (n : nat) : string :=
  match n with
  | O => ""
  | S n' => String "0" (zeros n')
  end.

(** The text of a positive finite number, from its digits and the
    position of its decimal point. *)
Definition number_text (s n : Z) : string :=
  let ds := pretty s in
  let k := Z.of_nat (String.length ds) in
  if (k <=? n) && (n <=? 21) then ds +:+ zeros (Z.to_nat (n - k))
  else if (0 <? n) && (n <=? 21) then
    String.substring 0 (Z.to_nat n) ds +:+ "."
    +:+ String.substring (Z.to_nat n) (Z.to_nat (k - n)) ds
  else if (-6 <? n) && (n <=? 0) then "0." +:+ zeros (Z.to_nat (- n)) +:+ ds
  else
    let e := n - 1 in
    (if k =? 1 then ds
     else String.substring 0 1 ds +:+ "."
          +:+ String.substring 1 (Z.to_nat (k - 1)) ds)
    +:+ "e" +:+ (if 0 <=? e then "+" else "-") +:+ pretty (Z.abs e).

Definition Number_toString (x : float) : string :=
  match Prim2SF x with
  | S754_nan => "NaN"
  | S754_zero _ => "0"
  | S754_infinity neg => if neg then "-Infinity" else "Infinity"
  | S754_finite neg m e =>
      let '(s, n) := shortest_decimal (Z.pos m) e in
      (if neg then "-" else "") +:+ number_text s n
  end.

(** ** Schema casts *)

(** The result of casting a value to a schema type: the cast value, an
    absent field ([null] or [undefined] stay as they are), a cast error,
    or a coercion outside this development. *)
Inductive cast (A : Type) : Type :=
| Cast (a : A)
| CastNull
| CastFail
| CastBeyond.
Arguments Cast {A} a.
Arguments CastNull {A}.
Arguments CastFail {A}.
Arguments CastBeyond {A}.

(** [castString]: strings are kept, numbers and booleans are printed with
    [toString()], an object that carries a non-empty string [_id] stands
    for that id, arrays and all other objects are refused. *)
Definition castString (v : jsval) : cast string :=
  match v with
  | JUndefined | JNull => CastNull
  | JStr s => Cast s
  | JNum n => Cast (Number_toString n)
  | JBool b => Cast (if b then "true" else "false")
  | JArr _ => CastFail
  | JObj props =>
      match get "_id" props with
      | JStr s => if bool_decide (s = "") then CastFail else Cast s
      | _ => CastFail
      end
  end.

Fixpoint string_exists (P : ascii → bool) (s : string) : bool :=
  match s with
  | EmptyString => false
  | String c s' => P c || string_exists P s'
  end.

(** [castNumber]: numbers are kept, booleans become 1 and 0, the empty
    string becomes [null], another string is converted with [Number(s)]
    and refused when that is [NaN], arrays and objects are refused.  (The
    function also refuses the number [NaN]; no JSON text denotes it, so a
    number of a parsed body is kept as it is.)  A string with a
    character outside ASCII, which can be white space that [Number(s)]
    trims, is left out. *)
Definition castNumber (v : jsval) : cast float :=
  match v with
  | JUndefined | JNull => CastNull
  | JNum n => Cast n
  | JBool b => Cast (if b then 1 else 0)%float
  | JStr s =>
      if bool_decide (s = "") then CastNull
      else if string_exists (λ c, (128 <=? N_of_ascii c)%N) s then CastBeyond
      else
        let n := StringToNumber s in
        if PrimFloat.is_nan n then CastFail else Cast n
  | JArr _ | JObj _ => CastFail
  end.

(** [SchemaNumber.prototype.cast], which a document under construction
    applies to a [Number] path: a value that has an [_id] stands for it,
    and the value is then cast with [castNumber]. *)
Definition SchemaNumber_cast (v : jsval) : cast float :=
  match v with
  | JObj props =>
      match get "_id" props with
      | JUndefined => castNumber v
      | id => castNumber id
      end
  | _ => castNumber v
  end.

(** The value of a query filter on a [String] path.  Arrays (an implicit
    [$in]) and objects (query selectors) are not modelled, nor is a
    filter on [null]. *)
Definition castFilter (v : jsval) : cast string :=
  match v with
  | JStr _ | JNum _ | JBool _ => castString v
  | JUndefined | JNull | JArr _ | JObj _ => CastBeyond
  end.

(** An [ObjectId] is a 96-bit number, written as 24 hexadecimal digits. *)
Definition ObjectId : Type := N.

Fixpoint hex_value (acc : N) (s : string) : option N :=
  match s with
  | EmptyString => Some acc
  | String c s' =>
      match hex_digit c with
      | Some d => hex_value (16 * acc + d)%N s'
      | None => None
      end
  end.

(** [castObjectId] on a string: 24 hexadecimal digits denote an
    identifier.  A string of 12 characters is read as 12 raw bytes by the
    drivers before bson 5 and refused since; it is left out.  Every other
    string is refused. *)
Definition castObjectId (s : string) : cast ObjectId :=
  if bool_decide (String.length s = 24%nat) then
    match hex_value 0%N s with
    | Some oid => Cast oid
    | None => CastFail
    end
  else if bool_decide (String.length s = 12%nat) then CastBeyond
  else CastFail.

(** [toHexString()]: the 24 lower-case hexadecimal digits of an
    [ObjectId], as a response shows it. *)
Definition hex_char (d : N) : ascii :=
  match d with
  | 0 => "0" | 1 => "1" | 2 => "2" | 3 => "3" | 4 => "4" | 5 => "5"
  | 6 => "6" | 7 => "7" | 8 => "8" | 9 => "9" | 10 => "a" | 11 => "b"
  | 12 => "c" | 13 => "d" | 14 => "e" | _ => "f"
  end%N%char.

Fixpoint hex_digits (k : nat) (n : N) (rest : string) : string :=
  match k with
  | O => rest
  | S k' => hex_digits k' (n / 16)%N (String (hex_char (n mod 16)%N) rest)
  end.

Definition toHexString (oid : ObjectId) : string := hex_digits 24 oid "".

(** ** Documents and collections *)

(** [userSchema] (lines 22-27), with the [_id] Mongoose adds. *)
Record user : Type := User_ {
  user_id : ObjectId;
  uid : string;
  name : option string;
  email : string;
  storageGB : float;
}.

(** [paymentSchema] (lines 34-41), with the [_id] Mongoose adds.
    [status] can be [null] after an update; [createdAt] is a time in
    milliseconds. *)
Record payment : Type := Payment_ {
  payment_id : ObjectId;
  userId : string;
  gb : float;
  totalPrice : float;
  upiLink : string;
  status : option string;
  createdAt : Z;
}.

(** The database, and the counter behind the [ObjectId]s the process
    generates.  A collection is the list of its documents, each at the
    place it was inserted at. *)
Record db : Type := Db {
  users : list user;
  payments : list payment;
  next_oid : ObjectId;
}.

Definition set_users (f : list user → list user) (s : db) : db :=
  {| users := f (users s); payments := payments s; next_oid := next_oid s |}.
Definition set_payments (f : list payment → list payment) (s : db) : db :=
  {| users := users s; payments := f (payments s); next_oid := next_oid s |}.

(** The order in which a query without a sort returns the documents of
    the payments: the source asks for none, so it can be any. *)
Record order : Type := Order {
  arrange : list payment → list payment;
  arrange_perm : ∀ docs, arrange docs ≡ₚ docs;
}.

Definition insertion_order : order :=
  {| arrange := λ docs, docs; arrange_perm := @Permutation_refl payment |}.

(** The document [$inc: { storageGB: d }] leaves behind: the sum is the
    sum of two doubles, rounded to the nearest double. *)
Definition inc_storageGB (d : float) (u : user) : user :=
  {| user_id := user_id u; uid := uid u; name := name u; email := email u;
     storageGB := PrimFloat.add (storageGB u) d |}.

(** The document [$set: { status: st }] leaves behind. *)
Definition set_status (st : option string) (p : payment) : payment :=
  {| payment_id := payment_id p; userId := userId p; gb := gb p;
     totalPrice := totalPrice p; upiLink := upiLink p; status := st;
     createdAt := createdAt p |}.

(** The database once the process has drawn one more [ObjectId]. *)
Definition with_oid_drawn (s : db) : db :=
  {| users := users s; payments := payments s;
     next_oid := N.succ (next_oid s) |}.

(** What a rejected promise carries; [err.message] is rendered from it. *)
Inductive error : Type :=
| ValidationError (paths : list string)
| CastError (path : string)
| DuplicateKey (index : string).

(** ** Operations that read or change the database and may throw *)

Inductive outcome (A : Type) : Type :=
| Return (a : A) (s : db)
| Raise (e : error) (s : db)
| Beyond.
Arguments Return {A} a s.
Arguments Raise {A} e s.
Arguments Beyond {A}.

Definition M (A : Type) : Type := db → outcome A.

Definition ret {A} (a : A) : M A := λ s, Return a s.
Definition throw {A} (e : error) : M A := λ s, Raise e s.
Definition beyond {A} : M A := λ _, Beyond.
Definition bind {A B} (m : M A) (k : A → M B) : M B :=
  λ s, match m s with
       | Return a s' => k a s'
       | Raise e s' => Raise e s'
       | Beyond => Beyond
       end.
(** [try { m } catch (err) { h err }] *)
Definition try_catch {A} (m : M A) (h : error → M A) : M A :=
  λ s, match m s with
       | Raise e s' => h e s'
       | o => o
       end.
Definition read {A} (f : db → A) : M A := λ s, Return (f s) s.
Definition modify (f : db → db) : M unit := λ s, Return tt (f s).

Notation "'let*' x ':=' m 'in' k" := (bind m (λ x, k))
  (at level 10, x name, m at level 200, k at level 200).

(** A cast value, or the exception a failed cast throws. *)
Definition cast_or_throw {A} (path : string) (c : cast A) : M A :=
  match c with
  | Cast a => ret a
  | CastNull | CastFail => throw (CastError path)
  | CastBeyond => beyond
  end.

(** A fresh [ObjectId], as the constructor of a document draws it. *)
Definition new_ObjectId : M ObjectId :=
  λ s, Return (next_oid s) (with_oid_drawn s).

(** The paths of a document under construction that validation refuses:
    a failed cast, or a required path left empty. *)
Definition invalid_string (required : bool) (path : string) (c : cast string)
  : list string :=
  match c with
  | Cast s => if required && bool_decide (s = "") then [path] else []
  | CastNull => if required then [path] else []
  | CastFail => [path]
  | CastBeyond => []
  end.
Definition invalid_number (required : bool) (path : string) (c : cast float)
  : list string :=
  match c with
  | Cast _ => []
  | CastNull => if required then [path] else []
  | CastFail => [path]
  | CastBeyond => []
  end.
Definition is_beyond {A} (c : cast A) : bool :=
  match c with CastBeyond => true | _ => false end.
Definition cast_value {A} (d : A) (c : cast A) : A :=
  match c with Cast a => a | _ => d end.
Definition cast_option {A} (c : cast A) : option A :=
  match c with Cast a => Some a | _ => None end.

Module User.

(** [new User({ uid, name, email })]: the document before it is saved. *)
Record draft : Type := Draft {
  d_id : ObjectId;
  d_uid : cast string;
  d_name : cast string;
  d_email : cast string;
  d_storageGB : float;
}.

Definition new (uid name email : jsval) : M draft :=
  let* oid := new_ObjectId in
  ret {| d_id := oid; d_uid := castString uid; d_name := castString name;
         d_email := castString email; d_storageGB := 0 |}.

Definition invalid (d : draft) : list string :=
  invalid_string true "uid" (d_uid d)
  ++ invalid_string false "name" (d_name d)
  ++ invalid_string true "email" (d_email d).

Definition doc (d : draft) : user :=
  {| user_id := d_id d; uid := cast_value "" (d_uid d);
     name := cast_option (d_name d); email := cast_value "" (d_email d);
     storageGB := d_storageGB d |}.

(** The unique indexes of the collection: [_id], [uid], [email]. *)
Definition duplicate (u : user) (docs : list user) : option string :=
  if bool_decide (user_id u ∈ user_id <$> docs) then Some "_id_"
  else if bool_decide (uid u ∈ uid <$> docs) then Some "uid_1"
  else if bool_decide (email u ∈ email <$> docs) then Some "email_1"
  else None.

(** [user.save()] of a new document: validate, then insert. *)
Definition save (d : draft) : M user :=
  if is_beyond (d_uid d) || is_beyond (d_name d) || is_beyond (d_email d)
  then beyond
  else match invalid d with
       | _ :: _ => throw (ValidationError (invalid d))
       | [] =>
           let u := doc d in
           let* docs := read users in
           match duplicate u docs with
           | Some index => throw (DuplicateKey index)
           | None =>
               let* _ := modify (set_users (λ docs, docs ++ [u])) in
               ret u
           end
       end.

(** [User.findOne({ uid })] *)
Definition findOne (uid_ : jsval) : M (option user) :=
  let* k := cast_or_throw "uid" (castFilter uid_) in
  let* docs := read users in
  ret (snd <$> list_find (λ u, uid u = k) docs).

(** [User.findOneAndUpdate({ uid }, { $inc: { storageGB } }, { new: true })] *)
Definition findOneAndUpdate_inc (uid_ : jsval) (storageGB_ : jsval)
  : M (option user) :=
  let* k := cast_or_throw "uid" (castFilter uid_) in
  let* d := cast_or_throw "storageGB" (castNumber storageGB_) in
  let* docs := read users in
  match list_find (λ u, uid u = k) docs with
  | None => ret None
  | Some (i, u) =>
      let u' := inc_storageGB d u in
      let* _ := modify (set_users (λ docs, <[i := u']> docs)) in
      ret (Some u')
  end.

End User.

Module Payment.

(** [new Payment({ userId, gb, totalPrice, upiLink })] *)
Record draft : Type := Draft {
  d_id : ObjectId;
  d_userId : cast string;
  d_gb : cast float;
  d_totalPrice : cast float;
  d_upiLink : cast string;
  d_status : option string;
  d_createdAt : Z;
}.

(** [now] is the value of [Date.now()] when the document is built. *)
Definition new (now : Z) (userId gb totalPrice upiLink : jsval) : M draft :=
  let* oid := new_ObjectId in
  ret {| d_id := oid; d_userId := castString userId;
         d_gb := SchemaNumber_cast gb;
         d_totalPrice := SchemaNumber_cast totalPrice;
         d_upiLink := castString upiLink;
         d_status := Some "PENDING"; d_createdAt := now |}.

Definition invalid (d : draft) : list string :=
  invalid_string true "userId" (d_userId d)
  ++ invalid_number true "gb" (d_gb d)
  ++ invalid_number true "totalPrice" (d_totalPrice d)
  ++ invalid_string true "upiLink" (d_upiLink d).

Definition doc (d : draft) : payment :=
  {| payment_id := d_id d; userId := cast_value "" (d_userId d);
     gb := cast_value 0%float (d_gb d);
     totalPrice := cast_value 0%float (d_totalPrice d);
     upiLink := cast_value "" (d_upiLink d); status := d_status d;
     createdAt := d_createdAt d |}.

(** [payment.save()] of a new document; [_id] is the only unique index. *)
Definition save (d : draft) : M payment :=
  if is_beyond (d_userId d) || is_beyond (d_gb d)
     || is_beyond (d_totalPrice d) || is_beyond (d_upiLink d)
  then beyond
  else match invalid d with
       | _ :: _ => throw (ValidationError (invalid d))
       | [] =>
           let p := doc d in
           let* docs := read payments in
           if bool_decide (payment_id p ∈ payment_id <$> docs)
           then throw (DuplicateKey "_id_")
           else
             let* _ := modify (set_payments (λ docs, docs ++ [p])) in
             ret p
       end.

(** [Payment.find()]: every document, in the order [o] of the store. *)
Definition find (o : order) : M (list payment) :=
  read (λ s, arrange o (payments s)).

(** The update document [{ status }] after casting: nothing to set when
    [status] is [undefined], [null] when it is [null], otherwise the
    value cast to the [String] of the schema; the cast of an array or of
    an object without a string [_id] fails. *)
Definition castUpdate (status_ : jsval) : cast (option (option string)) :=
  match status_ with
  | JUndefined => Cast None
  | JNull => Cast (Some None)
  | _ =>
      match castString status_ with
      | Cast s => Cast (Some (Some s))
      | _ => CastFail
      end
  end.

(** [Payment.findByIdAndUpdate(id, { status }, { new: true })] *)
Definition findByIdAndUpdate (id : string) (status_ : jsval)
  : M (option payment) :=
  let* oid := cast_or_throw "_id" (castObjectId id) in
  let* upd := cast_or_throw "status" (castUpdate status_) in
  let* docs := read payments in
  match list_find (λ p, payment_id p = oid) docs, upd with
  | None, _ => ret None
  | Some (_, p), None => ret (Some p)
  | Some (i, p), Some st =>
      let p' := set_status st p in
      let* _ := modify (set_payments (λ docs, <[i := p']> docs)) in
      ret (Some p')
  end.

End Payment.

(** ** Responses *)

(** The string of an [{ error: ... }] body: written in the handler, or
    [err.message] of a caught exception. *)
Inductive message : Type :=
| Text (s : string)
| Message (err : error).

Inductive json : Type :=
| JError (m : message)                       (* { error } *)
| JMessageUser (m : string) (u : user)       (* { message, user } *)
| JUser (u : user)
| JPayment (p : payment)
| JPayments (ps : list payment)
| JText (s : string).                        (* res.send(text) *)

Record response : Type := Response { code : Z; body : json }.

(** [res.status(c).json(b)] *)
Definition res_status_json (c : Z) (b : json) : M response :=
  ret {| code := c; body := b |}.
(** [res.json(b)] *)
Definition res_json (b : json) : M response := res_status_json 200 b.

(** ** The routes *)

(** [POST /api/users] (lines 50-66) *)
Definition post_api_users (body : jsobj) : M response :=
  let uid := get "uid" body in
  let name := get "name" body in
  let email := get "email" body in
  if negb (truthy uid) || negb (truthy email) then
    res_status_json 400 (JError (Text "UID and email are required"))
  else
    try_catch
      (let* user := User.findOne uid in
       match user with
       | None =>
           let* user := User.new uid name email in
           let* user := User.save user in
           res_status_json 201 (JMessageUser "User created" user)
       | Some user => res_json (JMessageUser "User already exists" user)
       end)
      (λ err, res_status_json 500 (JError (Message err))).

(** [GET /api/users/:uid] (lines 69-77) *)
Definition get_api_users_uid (params_uid : string) : M response :=
  try_catch
    (let* user := User.findOne (JStr params_uid) in
     match user with
     | None => res_status_json 404 (JError (Text "User not found"))
     | Some user => res_json (JUser user)
     end)
    (λ err, res_status_json 500 (JError (Message err))).

(** [PUT /api/users/:uid/storage] (lines 80-96) *)
Definition put_api_users_uid_storage (params_uid : string) (body : jsobj)
  : M response :=
  let storageGB := get "storageGB" body in
  if negb (bool_decide (typeof storageGB = "number")) then
    res_status_json 400 (JError (Text "storageGB must be a number"))
  else
    try_catch
      (let* user := User.findOneAndUpdate_inc (JStr params_uid) storageGB in
       match user with
       | None => res_status_json 404 (JError (Text "User not found"))
       | Some user => res_json (JMessageUser "Storage updated" user)
       end)
      (λ err, res_status_json 500 (JError (Message err))).

(** [POST /api/payments] (lines 103-117) *)
Definition post_api_payments (now : Z) (body : jsobj) : M response :=
  let userId := get "userId" body in
  let gb := get "gb" body in
  let totalPrice := get "totalPrice" body in
  let upiLink := get "upiLink" body in
  if negb (truthy userId) || negb (truthy gb) || negb (truthy totalPrice)
     || negb (truthy upiLink) then
    res_status_json 400 (JError (Text "Missing required fields"))
  else
    try_catch
      (let* payment := Payment.new now userId gb totalPrice upiLink in
       let* payment := Payment.save payment in
       res_status_json 201 (JPayment payment))
      (λ err, res_status_json 500 (JError (Message err))).

(** [GET /api/payments] (lines 120-127); [o] is the order in which the
    store returns the documents. *)
Definition get_api_payments (o : order) : M response :=
  try_catch
    (let* payments := Payment.find o in
     res_json (JPayments payments))
    (λ err, res_status_json 500 (JError (Message err))).

(** [PUT /api/payments/:id] (lines 130-143) *)
Definition put_api_payments_id (params_id : string) (body : jsobj)
  : M response :=
  try_catch
    (let status := get "status" body in
     let* payment := Payment.findByIdAndUpdate params_id status in
     match payment with
     | None => res_status_json 404 (JError (Text "Payment not found"))
     | Some payment => res_json (JPayment payment)
     end)
    (λ err, res_status_json 500 (JError (Message err))).

(** [GET /] (lines 148-150) *)
Definition get_root : M response :=
  ret {| code := 200; body := JText "🚀 API is running..." |}.

(** A request, with what the environment decides while it is served: the
    clock reading, the order of a listing. *)
Inductive request : Type :=
| POST_users (body : jsobj)
| GET_user (uid : string)
| PUT_user_storage (uid : string) (body : jsobj)
| POST_payments (now : Z) (body : jsobj)
| GET_payments (o : order)
| PUT_payment (id : string) (body : jsobj)
| GET_root.

Definition handle (r : request) : M response :=
  match r with
  | POST_users body => post_api_users body
  | GET_user uid => get_api_users_uid uid
  | PUT_user_storage uid body => put_api_users_uid_storage uid body
  | POST_payments now body => post_api_payments now body
  | GET_payments o => get_api_payments o
  | PUT_payment id body => put_api_payments_id id body
  | GET_root => get_root
  end.

(** The server after a list of requests, with the responses it gave; [None]
    when a request leaves the modelled fragment. *)
Fixpoint serve (rs : list request) (s : db) : option (list response * db) :=
  match rs with
  | [] => Some ([], s)
  | r :: rs' =>
      match handle r s with
      | Return a s' =>
          match serve rs' s' with
          | Some (resps, s'') => Some (a :: resps, s'')
          | None => None
          end
      | _ => None
      end
  end.

Definition empty_db : db := {| users := []; payments := []; next_oid := 0%N |}.

(** ** Invariants of the database *)

(** The unique indexes hold, and every stored [_id] was drawn from the
    generator. *)
Record wf (s : db) : Prop := Wf {
  wf_uid : NoDup (uid <$> users s);
  wf_email : NoDup (email <$> users s);
  wf_user_id : NoDup (user_id <$> users s);
  wf_payment_id : NoDup (payment_id <$> payments s);
  wf_user_old : Forall (λ u, (user_id u < next_oid s)%N) (users s);
  wf_payment_old : Forall (λ p, (payment_id p < next_oid s)%N) (payments s);
}.

(** The number of stored users with a given email. *)
Definition count_email (e : string) (s : db) : nat :=
  length (filter (λ u, email u = e) (users s)).
Definition count_uid (k : string) (s : db) : nat :=
  length (filter (λ u, uid u = k) (users s)).

(** The requests this development covers: those that need no coercion
    left out above.  Every other request is within it. *)
Definition covered (r : request) : bool :=
  match r with
  | POST_users body =>
      negb (truthy (get "uid" body) && truthy (get "email" body))
      || negb (is_beyond (castFilter (get "uid" body)))
  | POST_payments _ body =>
      negb (truthy (get "userId" body) && truthy (get "gb" body)
            && truthy (get "totalPrice" body) && truthy (get "upiLink" body))
      || (negb (is_beyond (SchemaNumber_cast (get "gb" body)))
          && negb (is_beyond (SchemaNumber_cast (get "totalPrice" body))))
  | PUT_payment id body =>
      match castObjectId id with
      | CastBeyond => false
      | Cast _ => negb (is_beyond (Payment.castUpdate (get "status" body)))
      | _ => true
      end
  | GET_user _ | PUT_user_storage _ _ | GET_payments _ | GET_root => true
  end.

(** ** The vocabulary of the statements *)

(** Unfolds the operations of [M] and the response helpers. *)
Ltac unfold_M :=
  unfold try_catch, bind, ret, throw, beyond, read, modify, res_json,
    res_status_json, cast_or_throw, new_ObjectId in *.

(** The answer of a storage adjustment that found its user. *)
Definition storage_updated (u : user) : response :=
  {| code := 200; body := JMessageUser "Storage updated" u |}.

(** The body [{ "storageGB": d }]. *)
Definition storage_body (d : float) : jsobj := [("storageGB", JNum d)].

(** The record [u] with the counter at [x]. *)
Definition with_storageGB (x : float) (u : user) : user :=
  {| user_id := user_id u; uid := uid u; name := name u; email := email u;
     storageGB := x |}.

(** The sums of doubles a counter at [x] goes through as the deltas [ds]
    are added to it one after the other. *)
Fixpoint running_sums (x : float) (ds : list float) : list float :=
  match ds with
  | [] => []
  | d :: ds' => PrimFloat.add x d :: running_sums (PrimFloat.add x d) ds'
  end.

(** [preserves m]: whatever [m] does to a database with the invariants,
    by returning or by throwing, the invariants still hold. *)
Definition preserves {A} (m : M A) : Prop :=
  ∀ s, wf s →
    match m s with
    | Return _ s' | Raise _ s' => wf s'
    | Beyond => True
    end.

(** The answers of [POST /api/users]. *)
Definition user_rejected : response :=
  {| code := 400; body := JError (Text "UID and email are required") |}.

Definition user_created (u : user) : response :=
  {| code := 201; body := JMessageUser "User created" u |}.

Definition user_exists (u : user) : response :=
  {| code := 200; body := JMessageUser "User already exists" u |}.

(** The document [new User({ uid, name, email })] holds for a string
    [uid], a string [email] and a [name] of the body. *)
Definition new_user (oid : ObjectId) (k : string) (name_ : jsval)
    (e : string) : user :=
  {| user_id := oid; uid := k; name := cast_option (castString name_);
     email := e; storageGB := 0 |}.

(** The database once [u] is inserted with the next [ObjectId]. *)
Definition with_user (u : user) (s : db) : db :=
  {| users := users s ++ [u]; payments := payments s;
     next_oid := N.succ (next_oid s) |}.

(** The answers of [POST /api/payments] and [PUT /api/payments/:id]. *)
Definition payment_rejected : response :=
  {| code := 400; body := JError (Text "Missing required fields") |}.

(** The document [new Payment({ userId, gb, totalPrice, upiLink })] holds
    for fields of the schema's types. *)
Definition new_payment (oid : ObjectId) (now : Z) (u : string) (g t : float)
    (l : string) : payment :=
  {| payment_id := oid; userId := u; gb := g; totalPrice := t; upiLink := l;
     status := Some "PENDING"; createdAt := now |}.

(** The database once [p] is inserted with the next [ObjectId]. *)
Definition with_payment (p : payment) (s : db) : db :=
  {| users := users s; payments := payments s ++ [p];
     next_oid := N.succ (next_oid s) |}.

Definition payment_not_found : response :=
  {| code := 404; body := JError (Text "Payment not found") |}.

(** A value that is no array and no object: a string, a number, a
    boolean, [null] or [undefined]. *)
Definition scalar (v : jsval) : bool :=
  match v with
  | JArr _ | JObj _ => false
  | _ => true
  end.

(** What [new Payment({ userId, gb, totalPrice, upiLink })] builds from a
    body, before it is saved. *)
Definition payment_draft (oid : ObjectId) (now : Z) (body : jsobj)
  : Payment.draft :=
  {| Payment.d_id := oid;
     Payment.d_userId := castString (get "userId" body);
     Payment.d_gb := SchemaNumber_cast (get "gb" body);
     Payment.d_totalPrice := SchemaNumber_cast (get "totalPrice" body);
     Payment.d_upiLink := castString (get "upiLink" body);
     Payment.d_status := Some "PENDING";
     Payment.d_createdAt := now |}.

(** The check of the handler (line 106). *)
Definition passes_handler_check (body : jsobj) : bool :=
  truthy (get "userId" body) && truthy (get "gb" body)
  && truthy (get "totalPrice" body) && truthy (get "upiLink" body).

(** The validation of [save()]: every field is cast to its schema type
    and every required field is there. *)
Definition passes_schema (body : jsobj) : bool :=
  negb (is_beyond (SchemaNumber_cast (get "gb" body)))
  && negb (is_beyond (SchemaNumber_cast (get "totalPrice" body)))
  && bool_decide (Payment.invalid (payment_draft 0%N 0 body) = []).

(** ** Further vocabulary: reads, sequences, what a request keeps *)

(** The answers of [GET /api/users/:uid]. *)
Definition user_found (u : user) : response :=
  {| code := 200; body := JUser u |}.
Definition user_not_found : response :=
  {| code := 404; body := JError (Text "User not found") |}.

(** The answers of the payment routes that carry documents. *)
Definition payment_created (p : payment) : response :=
  {| code := 201; body := JPayment p |}.
Definition payment_updated (p : payment) : response :=
  {| code := 200; body := JPayment p |}.
Definition payments_listed (ps : list payment) : response :=
  {| code := 200; body := JPayments ps |}.

(** The body [{ "status": st }]. *)
Definition status_body (st : string) : jsobj := [("status", JStr st)].

(** Successive adjustments of the user [k] by the deltas [ds]. *)
Definition storage_requests (k : string) (ds : list float) : list request :=
  (λ d, PUT_user_storage k (storage_body d)) <$> ds.

(** The status codes written in the handlers. *)
Definition status_codes : list Z := [200; 201; 400; 404; 500].

(** The routes under [/api/users] and those under [/api/payments]. *)
Definition user_route (r : request) : bool :=
  match r with
  | POST_users _ | GET_user _ | PUT_user_storage _ _ => true
  | _ => false
  end.
Definition payment_route (r : request) : bool :=
  match r with
  | POST_payments _ _ | GET_payments _ | PUT_payment _ _ => true
  | _ => false
  end.

(** [u'] is [u] up to its counter; [p'] is [p] up to its status. *)
Definition same_user_but_storage (u u' : user) : Prop :=
  user_id u' = user_id u ∧ uid u' = uid u ∧ name u' = name u
  ∧ email u' = email u.
Definition same_payment_but_status (p p' : payment) : Prop :=
  payment_id p' = payment_id p ∧ userId p' = userId p ∧ gb p' = gb p
  ∧ totalPrice p' = totalPrice p ∧ upiLink p' = upiLink p
  ∧ createdAt p' = createdAt p.

(** [s'] still has every document of [s], at its place. *)
Definition keeps_documents (s s' : db) : Prop :=
  (∀ i u, users s !! i = Some u →
     ∃ u', users s' !! i = Some u' ∧ same_user_but_storage u u')
  ∧ (∀ i p, payments s !! i = Some p →
       ∃ p', payments s' !! i = Some p' ∧ same_payment_but_status p p').

(** The outcome [o], with [f] applied to the database it leaves. *)
Definition outcome_map {A} (f : db → db) (o : outcome A) : outcome A :=
  match o with
  | Return a s => Return a (f s)
  | Raise e s => Raise e (f s)
  | Beyond => Beyond
  end.

(** Unfolds a route down to the operations of [M]. *)
Ltac unfold_routes :=
  unfold handle, post_api_users, get_api_users_uid,
    put_api_users_uid_storage, post_api_payments, get_api_payments,
    put_api_payments_id, get_root, User.findOne, User.new, User.save,
    User.findOneAndUpdate_inc, Payment.new, Payment.save, Payment.find,
    Payment.findByIdAndUpdate in *;
  repeat (progress unfold_M).

(** Splits the run of a route into its paths. *)
Ltac route_paths :=
  unfold_routes; simpl in *;
  repeat (case_match; simplify_eq/=); simplify_eq/=.

(** * Lemmas on lists keyed by a field *)

Section Keyed.
Context {A K : Type} `{EqDecision K} (f : A → K).

Lemma list_find_key (l : list A) (i : nat) (x : A) :
  NoDup (f <$> l) → l !! i = Some x →
  list_find (λ y, f y = f x) l = Some (i, x).
Proof.
  intros Hnd Hi. apply list_find_Some. split_and!; [done..|].
  intros j y Hj Hlt Heq.
  assert (j = i); [|lia].
  eapply (NoDup_lookup (f <$> l) j i (f x)); [done|..].
  - by rewrite list_lookup_fmap, Hj; simpl; rewrite Heq.
  - by rewrite list_lookup_fmap, Hi.
Qed.

Lemma list_find_key_None (l : list A) (k : K) :
  k ∉ f <$> l → list_find (λ y, f y = k) l = None.
Proof.
  intros Hk. apply list_find_None, Forall_forall. intros y Hy <-.
  apply Hk, list_elem_of_fmap. eauto.
Qed.

Lemma fmap_insert_same_key (l : list A) (i : nat) (x x' : A) :
  l !! i = Some x → f x' = f x → f <$> <[i := x']> l = f <$> l.
Proof.
  intros Hi Hf. rewrite list_fmap_insert, Hf.
  apply list_insert_id. by rewrite list_lookup_fmap, Hi.
Qed.

Lemma NoDup_fmap_snoc (l : list A) (x : A) :
  NoDup (f <$> l) → f x ∉ f <$> l → NoDup (f <$> (l ++ [x])).
Proof.
  intros Hnd Hx. rewrite fmap_app. apply NoDup_app. split_and!; [done| |].
  - intros k Hk [->|[]%elem_of_nil]%elem_of_cons. done.
  - apply NoDup_singleton.
Qed.

Lemma filter_key_absent (l : list A) (k : K) :
  k ∉ f <$> l → filter (λ y, f y = k) l = [].
Proof.
  induction l as [|y l IH]; [done|].
  rewrite fmap_cons, not_elem_of_cons. intros [Hne Hk].
  rewrite filter_cons_False by congruence. auto.
Qed.

Lemma filter_key_length (l : list A) (x : A) :
  NoDup (f <$> l) → x ∈ l → length (filter (λ y, f y = f x) l) = 1%nat.
Proof.
  induction l as [|y l IH]; intros Hnd Hx; [by apply elem_of_nil in Hx|].
  rewrite fmap_cons in Hnd. apply NoDup_cons in Hnd as [Hy Hnd].
  destruct (decide (f y = f x)) as [Heq|Hne].
  - rewrite filter_cons_True by done.
    rewrite filter_key_absent by congruence. done.
  - rewrite filter_cons_False by done.
    apply elem_of_cons in Hx as [->|Hx]; [done|]. auto.
Qed.

End Keyed.

(** * The hexadecimal form of an [ObjectId] *)

Lemma hex_digit_hex_char (d : N) : (d < 16)%N → hex_digit (hex_char d) = Some d.
Proof.
  intros Hd.
  assert (Hcases : Forall (λ x, hex_digit (hex_char x) = Some x)
                     (N.of_nat <$> seq 0 16)).
  { by repeat constructor. }
  rewrite Forall_forall in Hcases. apply Hcases.
  apply list_elem_of_fmap. exists (N.to_nat d). split; [lia|].
  apply elem_of_seq. lia.
Qed.

Lemma length_hex_digits (k : nat) (n : N) (rest : string) :
  String.length (hex_digits k n rest) = (k + String.length rest)%nat.
Proof.
  revert n rest. induction k as [|k IH]; intros n rest; [done|].
  simpl. rewrite IH. simpl. lia.
Qed.

Lemma hex_value_hex_digits (k : nat) (n acc : N) (rest : string) :
  hex_value acc (hex_digits k n rest)
  = hex_value (acc * 16 ^ N.of_nat k + n mod 16 ^ N.of_nat k)%N rest.
Proof.
  revert n acc rest. induction k as [|k IH]; intros n acc rest.
  - simpl. f_equal. rewrite N.mod_1_r. lia.
  - cbn [hex_digits]. rewrite IH. cbn [hex_value].
    rewrite hex_digit_hex_char by (apply N.mod_lt; lia).
    f_equal. rewrite Nat2N.inj_succ, N.pow_succ_r'.
    rewrite (N.Div0.mod_mul_r n 16 (16 ^ N.of_nat k)). lia.
Qed.

(** Every 96-bit identifier is reached by the string a response shows. *)
Lemma castObjectId_toHexString (oid : ObjectId) :
  (oid < 2 ^ 96)%N → castObjectId (toHexString oid) = Cast oid.
Proof.
  intros Hlt. unfold castObjectId, toHexString.
  rewrite bool_decide_eq_true_2 by by rewrite length_hex_digits.
  rewrite hex_value_hex_digits. cbn [hex_value]. f_equal.
  change (16 ^ N.of_nat 24)%N with (2 ^ 96)%N.
  rewrite N.mod_small by done. lia.
Qed.

(** * The Mongoose operations on values of the schema's types *)

Lemma castString_not_beyond (v : jsval) : is_beyond (castString v) = false.
Proof.
  destruct v as [| | [] | | | |props]; try done. simpl.
  destruct (get "_id" props); try done. by case_bool_decide.
Qed.

Lemma typeof_number (v : jsval) :
  typeof v = "number" → ∃ n, v = JNum n.
Proof. destruct v; try discriminate. eauto. Qed.

Lemma set_users_set_users (g h : list user → list user) (s : db) :
  set_users g (set_users h s) = set_users (λ docs, g (h docs)) s.
Proof. reflexivity. Qed.

Lemma User_findOne_string (k : string) (s : db) :
  User.findOne (JStr k) s
  = Return (snd <$> list_find (λ u, uid u = k) (users s)) s.
Proof. reflexivity. Qed.

Lemma User_findOne_hit (i : nat) (u : user) (s : db) :
  NoDup (uid <$> users s) → users s !! i = Some u →
  User.findOne (JStr (uid u)) s = Return (Some u) s.
Proof.
  intros Hnd Hu. rewrite User_findOne_string.
  by rewrite (list_find_key uid _ _ _ Hnd Hu).
Qed.

Lemma User_findOne_miss (k : string) (s : db) :
  k ∉ uid <$> users s → User.findOne (JStr k) s = Return None s.
Proof.
  intros Hk. rewrite User_findOne_string.
  by rewrite (list_find_key_None uid _ _ Hk).
Qed.

(** Adding [0] to a double gives that double, unless it is [-0]: the sum
    of [-0] and [0] is [0]. *)
Lemma add_zero (x : float) : x ≠ (-0)%float → (x + 0)%float = x.
Proof.
  intros Hx. apply Prim2SF_inj. rewrite add_spec.
  change (Prim2SF 0) with (S754_zero false).
  destruct (Prim2SF x) as [[]| | |] eqn:Hsf; try reflexivity.
  destruct Hx. apply Prim2SF_inj. by rewrite Hsf.
Qed.

Lemma inc_storageGB_0 (u : user) :
  storageGB u ≠ (-0)%float → inc_storageGB 0 u = u.
Proof.
  intros Hu. destruct u. unfold inc_storageGB. simpl in *. f_equal.
  by apply add_zero.
Qed.

Lemma set_users_insert_id (i : nat) (u : user) (s : db) :
  users s !! i = Some u → set_users (λ docs, <[i := u]> docs) s = s.
Proof.
  intros Hu. destruct s as [us ps n]. unfold set_users. simpl in *.
  by rewrite list_insert_id.
Qed.

Lemma User_findOneAndUpdate_hit (i : nat) (u : user) (d : float) (s : db) :
  NoDup (uid <$> users s) → users s !! i = Some u →
  User.findOneAndUpdate_inc (JStr (uid u)) (JNum d) s
  = Return (Some (inc_storageGB d u))
      (set_users (λ docs, <[i := inc_storageGB d u]> docs) s).
Proof.
  intros Hnd Hu. unfold User.findOneAndUpdate_inc. unfold_M. simpl.
  by rewrite (list_find_key uid _ _ _ Hnd Hu).
Qed.

Lemma User_findOneAndUpdate_miss (k : string) (d : float) (s : db) :
  k ∉ uid <$> users s →
  User.findOneAndUpdate_inc (JStr k) (JNum d) s = Return None s.
Proof.
  intros Hk. unfold User.findOneAndUpdate_inc. unfold_M. simpl.
  by rewrite (list_find_key_None uid _ _ Hk).
Qed.

(** * [PUT /api/users/:uid/storage] *)

Lemma put_storage_not_number (k : string) (body : jsobj) (s : db) :
  typeof (get "storageGB" body) ≠ "number" →
  put_api_users_uid_storage k body s
  = Return {| code := 400;
              body := JError (Text "storageGB must be a number") |} s.
Proof.
  intros H. unfold put_api_users_uid_storage.
  by rewrite bool_decide_eq_false_2.
Qed.

Lemma put_storage_hit (i : nat) (u : user) (d : float) (body : jsobj)
    (s : db) :
  NoDup (uid <$> users s) → users s !! i = Some u →
  get "storageGB" body = JNum d →
  put_api_users_uid_storage (uid u) body s
  = Return (storage_updated (inc_storageGB d u))
      (set_users (λ docs, <[i := inc_storageGB d u]> docs) s).
Proof.
  intros Hnd Hu Hd. unfold put_api_users_uid_storage. rewrite Hd. simpl.
  unfold try_catch, bind at 1.
  by rewrite (User_findOneAndUpdate_hit i u d s Hnd Hu).
Qed.

Lemma put_storage_miss (k : string) (d : float) (body : jsobj) (s : db) :
  k ∉ uid <$> users s → get "storageGB" body = JNum d →
  put_api_users_uid_storage k body s
  = Return {| code := 404; body := JError (Text "User not found") |} s.
Proof.
  intros Hk Hd. unfold put_api_users_uid_storage. rewrite Hd. simpl.
  unfold try_catch, bind at 1. by rewrite User_findOneAndUpdate_miss.
Qed.

Lemma with_storageGB_id (u : user) : with_storageGB (storageGB u) u = u.
Proof. by destruct u. Qed.

Lemma serve_adjustments (ds : list float) (i : nat) (u : user) (s : db) :
  NoDup (uid <$> users s) → users s !! i = Some u →
  serve (storage_requests (uid u) ds) s
  = Some ((λ x, storage_updated (with_storageGB x u))
            <$> running_sums (storageGB u) ds,
          set_users
            (λ docs, <[i := with_storageGB
                              (foldl PrimFloat.add (storageGB u) ds) u]> docs)
            s).
Proof.
  unfold storage_requests.
  revert u s. induction ds as [|d ds IH]; intros u s Hnd Hu.
  - simpl. by rewrite with_storageGB_id, set_users_insert_id.
  - rewrite fmap_cons. cbn [serve handle].
    rewrite (put_storage_hit i u d (storage_body d) s Hnd Hu eq_refl).
    set (u1 := inc_storageGB d u).
    set (s1 := set_users (λ docs, <[i := u1]> docs) s).
    assert (Hlen : (i < length (users s))%nat) by by eapply lookup_lt_Some.
    assert (Hu1 : users s1 !! i = Some u1)
      by by apply list_lookup_insert_eq.
    assert (Hnd1 : NoDup (uid <$> users s1)).
    { unfold s1. simpl. by rewrite (fmap_insert_same_key uid _ _ u u1). }
    change (uid u) with (uid u1).
    rewrite (IH u1 s1 Hnd1 Hu1). simpl. do 2 f_equal.
    unfold s1. rewrite set_users_set_users.
    unfold set_users. f_equal. apply list_insert_insert_eq.
Qed.

(** * Operations that keep the invariants *)

Lemma preserves_ret {A} (a : A) : preserves (ret a).
Proof. intros s Hs. done. Qed.

Lemma preserves_throw {A} (e : error) : preserves (@throw A e).
Proof. intros s Hs. done. Qed.

Lemma preserves_beyond {A} : preserves (@beyond A).
Proof. intros s Hs. done. Qed.

Lemma preserves_read {A} (f : db → A) : preserves (read f).
Proof. intros s Hs. done. Qed.

Lemma preserves_bind {A B} (m : M A) (k : A → M B) :
  preserves m → (∀ a, preserves (k a)) → preserves (bind m k).
Proof.
  intros Hm Hk s Hs. unfold bind. specialize (Hm s Hs).
  destruct (m s) as [a s'|e s'|]; [|done..]. by apply Hk.
Qed.

Lemma preserves_try_catch {A} (m : M A) (h : error → M A) :
  preserves m → (∀ e, preserves (h e)) → preserves (try_catch m h).
Proof.
  intros Hm Hh s Hs. unfold try_catch. specialize (Hm s Hs).
  destruct (m s) as [a s'|e s'|]; [done| |done]. by apply Hh.
Qed.

Lemma preserves_cast_or_throw {A} (path : string) (c : cast A) :
  preserves (cast_or_throw path c).
Proof. intros s Hs. by destruct c. Qed.

Lemma preserves_res_status_json (c : Z) (b : json) :
  preserves (res_status_json c b).
Proof. apply preserves_ret. Qed.

Create HintDb preserves.
#[local] Hint Resolve preserves_ret preserves_throw preserves_beyond
  preserves_read preserves_cast_or_throw preserves_res_status_json
  : preserves.

Lemma wf_next_oid (s : db) :
  wf s →
  (next_oid s ∉ user_id <$> users s)
  ∧ (next_oid s ∉ payment_id <$> payments s).
Proof.
  intros [_ _ _ _ Hu Hp]. split.
  - intros (u & Heq & Hin)%list_elem_of_fmap.
    rewrite Forall_forall in Hu. specialize (Hu u Hin). simpl in Hu. lia.
  - intros (p & Heq & Hin)%list_elem_of_fmap.
    rewrite Forall_forall in Hp. specialize (Hp p Hin). simpl in Hp. lia.
Qed.

Lemma wf_succ_oid (s : db) :
  wf s →
  wf {| users := users s; payments := payments s;
        next_oid := N.succ (next_oid s) |}.
Proof.
  intros [? ? ? ? Hu Hp]. split; simpl; try done.
  - eapply Forall_impl; [exact Hu|]. simpl. lia.
  - eapply Forall_impl; [exact Hp|]. simpl. lia.
Qed.

Lemma wf_insert_user (s : db) (u : user) :
  wf s → uid u ∉ uid <$> users s → email u ∉ email <$> users s →
  user_id u = next_oid s →
  wf {| users := users s ++ [u]; payments := payments s;
        next_oid := N.succ (next_oid s) |}.
Proof.
  intros Hs Hk He Hid. destruct (wf_next_oid s Hs) as [Hfresh _].
  destruct Hs as [? ? ? ? Hu Hp]. split; simpl.
  - by apply NoDup_fmap_snoc.
  - by apply NoDup_fmap_snoc.
  - apply NoDup_fmap_snoc; [done|]. by rewrite Hid.
  - done.
  - apply Forall_app. split.
    + eapply Forall_impl; [exact Hu|]. simpl. lia.
    + apply Forall_singleton. lia.
  - eapply Forall_impl; [exact Hp|]. simpl. lia.
Qed.

Lemma wf_insert_payment (s : db) (p : payment) :
  wf s → payment_id p = next_oid s →
  wf {| users := users s; payments := payments s ++ [p];
        next_oid := N.succ (next_oid s) |}.
Proof.
  intros Hs Hid. destruct (wf_next_oid s Hs) as [_ Hfresh].
  destruct Hs as [? ? ? ? Hu Hp]. split; simpl; try done.
  - apply NoDup_fmap_snoc; [done|]. by rewrite Hid.
  - eapply Forall_impl; [exact Hu|]. simpl. lia.
  - apply Forall_app. split.
    + eapply Forall_impl; [exact Hp|]. simpl. lia.
    + apply Forall_singleton. lia.
Qed.

Lemma wf_update_user (s : db) (i : nat) (u u' : user) :
  wf s → users s !! i = Some u →
  uid u' = uid u → email u' = email u → user_id u' = user_id u →
  wf (set_users (λ docs, <[i := u']> docs) s).
Proof.
  intros [? ? ? ? Hu Hp] Hi Hk He Hid. split; simpl; try done.
  - by rewrite (fmap_insert_same_key uid _ _ u u').
  - by rewrite (fmap_insert_same_key email _ _ u u').
  - by rewrite (fmap_insert_same_key user_id _ _ u u').
  - apply Forall_insert; [done|]. rewrite Hid.
    rewrite Forall_forall in Hu. apply Hu. by eapply list_elem_of_lookup_2.
Qed.

Lemma wf_update_payment (s : db) (i : nat) (p p' : payment) :
  wf s → payments s !! i = Some p → payment_id p' = payment_id p →
  wf (set_payments (λ docs, <[i := p']> docs) s).
Proof.
  intros [? ? ? ? Hu Hp] Hi Hid. split; simpl; try done.
  - by rewrite (fmap_insert_same_key payment_id _ _ p p').
  - apply Forall_insert; [done|]. rewrite Hid.
    rewrite Forall_forall in Hp. apply Hp. by eapply list_elem_of_lookup_2.
Qed.

Lemma preserves_User_findOne (v : jsval) : preserves (User.findOne v).
Proof.
  unfold User.findOne.
  repeat (apply preserves_bind; [auto with preserves|intros ?]).
  auto with preserves.
Qed.

Lemma preserves_User_findOneAndUpdate (v w : jsval) :
  preserves (User.findOneAndUpdate_inc v w).
Proof.
  unfold User.findOneAndUpdate_inc.
  apply preserves_bind; [auto with preserves|intros k].
  apply preserves_bind; [auto with preserves|intros d].
  intros s Hs. unfold_M.
  destruct (list_find _ _) as [[i u]|] eqn:Hfind; [|done].
  apply list_find_Some in Hfind as (Hi & _ & _).
  by eapply wf_update_user.
Qed.

Lemma preserves_User_create {A} (uid_ name_ email_ : jsval)
    (k : user → M A) :
  (∀ u, preserves (k u)) →
  preserves (let* d := User.new uid_ name_ email_ in
             let* u := User.save d in k u).
Proof.
  intros Hk s Hs. unfold User.new, User.save. unfold_M. simpl.
  destruct (is_beyond _ || is_beyond _ || is_beyond _); [done|].
  destruct (User.invalid _) eqn:Hinv; [|by apply wf_succ_oid].
  destruct (User.duplicate _ _) eqn:Hdup; [by apply wf_succ_oid|].
  apply Hk. unfold User.duplicate in Hdup. simpl in Hdup.
  repeat case_bool_decide; try discriminate.
  by refine (wf_insert_user s _ Hs _ _ _).
Qed.

Lemma preserves_Payment_create {A} (now : Z)
    (userId_ gb_ totalPrice_ upiLink_ : jsval) (k : payment → M A) :
  (∀ p, preserves (k p)) →
  preserves (let* d := Payment.new now userId_ gb_ totalPrice_ upiLink_ in
             let* p := Payment.save d in k p).
Proof.
  intros Hk s Hs. unfold Payment.new, Payment.save. unfold_M. simpl.
  destruct (_ || _ || _ || _); [done|].
  destruct (Payment.invalid _) eqn:Hinv; [|by apply wf_succ_oid].
  case_bool_decide; [by apply wf_succ_oid|].
  apply Hk. by refine (wf_insert_payment s _ Hs _).
Qed.

Lemma preserves_Payment_findByIdAndUpdate (id : string) (v : jsval) :
  preserves (Payment.findByIdAndUpdate id v).
Proof.
  unfold Payment.findByIdAndUpdate.
  apply preserves_bind; [auto with preserves|intros oid].
  apply preserves_bind; [auto with preserves|intros upd].
  intros s Hs. unfold_M.
  destruct (list_find _ _) as [[i p]|] eqn:Hfind; [|done].
  apply list_find_Some in Hfind as (Hi & _ & _).
  destruct upd as [st|]; [|done].
  by eapply wf_update_payment.
Qed.

Lemma preserves_handle (r : request) : preserves (handle r).
Proof.
  destruct r as [body|k|k body|now body| |id body|]; simpl.
  - unfold post_api_users. destruct (_ || _); [auto with preserves|].
    apply preserves_try_catch; [|auto with preserves].
    apply preserves_bind; [apply preserves_User_findOne|].
    intros [u|]; [auto with preserves; apply preserves_ret|].
    apply preserves_User_create. auto with preserves.
  - unfold get_api_users_uid.
    apply preserves_try_catch; [|auto with preserves].
    apply preserves_bind; [apply preserves_User_findOne|].
    intros [u|]; auto with preserves; apply preserves_ret.
  - unfold put_api_users_uid_storage. destruct (negb _); [auto with preserves|].
    apply preserves_try_catch; [|auto with preserves].
    apply preserves_bind; [apply preserves_User_findOneAndUpdate|].
    intros [u|]; auto with preserves; apply preserves_ret.
  - unfold post_api_payments.
    destruct (_ || _ || _ || _); [auto with preserves|].
    apply preserves_try_catch; [|auto with preserves].
    apply preserves_Payment_create. auto with preserves.
  - unfold get_api_payments.
    apply preserves_try_catch; [|auto with preserves].
    apply preserves_bind; [apply preserves_read|].
    intros ?; apply preserves_ret.
  - unfold put_api_payments_id.
    apply preserves_try_catch; [|auto with preserves].
    apply preserves_bind; [apply preserves_Payment_findByIdAndUpdate|].
    intros [p|]; auto with preserves; apply preserves_ret.
  - apply preserves_ret.
Qed.

(** A covered request is answered. *)
Lemma handle_covered (r : request) (s : db) :
  covered r = true → ∃ resp s', handle r s = Return resp s'.
Proof.
  destruct r as [body|k|k body|now body| |id body|]; simpl; intros Hc.
  - unfold post_api_users, User.findOne, User.new, User.save. unfold_M.
    destruct (truthy (get "uid" body)), (truthy (get "email" body));
      simpl in *; eauto.
    destruct (castFilter (get "uid" body)); simpl in *; eauto; [|done].
    destruct (list_find _ _) as [[i u]|]; simpl; eauto.
    rewrite !castString_not_beyond. simpl.
    destruct (User.invalid _); eauto.
    destruct (User.duplicate _ _); eauto.
  - unfold get_api_users_uid, User.findOne. unfold_M. simpl.
    destruct (list_find _ _) as [[i u]|]; simpl; eauto.
  - unfold put_api_users_uid_storage, User.findOneAndUpdate_inc. unfold_M.
    destruct (get "storageGB" body); simpl; eauto.
    destruct (list_find _ _) as [[i u]|]; simpl; eauto.
  - unfold post_api_payments, Payment.new, Payment.save. unfold_M.
    destruct (truthy (get "userId" body)), (truthy (get "gb" body)),
      (truthy (get "totalPrice" body)), (truthy (get "upiLink" body));
      simpl in *; eauto.
    apply andb_prop in Hc as [->%negb_true_iff ->%negb_true_iff].
    rewrite !castString_not_beyond. simpl.
    destruct (Payment.invalid _); eauto.
    case_bool_decide; eauto.
  - eauto.
  - unfold put_api_payments_id, Payment.findByIdAndUpdate. unfold_M.
    destruct (castObjectId id); simpl in *; eauto; [|done].
    destruct (Payment.castUpdate _) as [upd| | |]; simpl in *; eauto; [|done].
    destruct (list_find _ _) as [[i p]|], upd; simpl; eauto.
  - eauto.
Qed.

Lemma wf_empty_db : wf empty_db.
Proof. split; simpl; constructor. Qed.

Lemma wf_serve (rs : list request) (s s' : db) (resps : list response) :
  wf s → serve rs s = Some (resps, s') → wf s'.
Proof.
  revert s resps. induction rs as [|r rs IH]; intros s resps Hs Hserve.
  - by injection Hserve as _ <-.
  - simpl in Hserve. pose proof (preserves_handle r s Hs) as Hr.
    destruct (handle r s) as [a s1|e s1|]; [|done..].
    destruct (serve rs s1) as [[resps' s2]|] eqn:Hrest; [|done].
    injection Hserve as _ <-. eauto.
Qed.

(** A handler answers every exception itself. *)
Lemma handle_no_raise (r : request) (s s' : db) (e : error) :
  handle r s ≠ Raise e s'.
Proof.
  destruct r as [body|k|k body|now body| |id body|]; simpl.
  - unfold post_api_users. destruct (_ || _); [done|].
    unfold try_catch. by destruct (bind _ _ s).
  - unfold get_api_users_uid, try_catch. by destruct (bind _ _ s).
  - unfold put_api_users_uid_storage. destruct (negb _); [done|].
    unfold try_catch. by destruct (bind _ _ s).
  - unfold post_api_payments. destruct (_ || _ || _ || _); [done|].
    unfold try_catch. by destruct (bind _ _ s).
  - done.
  - unfold put_api_payments_id, try_catch. by destruct (bind _ _ s).
  - done.
Qed.

(** * [POST /api/users] *)

Lemma truthy_JStr (k : string) : k ≠ "" → truthy (JStr k) = true.
Proof. intros H. simpl. by rewrite bool_decide_eq_false_2. Qed.

Lemma post_users_rejected (body : jsobj) (s : db) :
  truthy (get "uid" body) && truthy (get "email" body) = false →
  post_api_users body s = Return user_rejected s.
Proof.
  intros H. unfold post_api_users.
  by destruct (truthy (get "uid" body)), (truthy (get "email" body)).
Qed.

Lemma post_users_exists (i : nat) (u : user) (body : jsobj) (s : db) :
  NoDup (uid <$> users s) → users s !! i = Some u →
  get "uid" body = JStr (uid u) → uid u ≠ "" →
  truthy (get "email" body) = true →
  post_api_users body s = Return (user_exists u) s.
Proof.
  intros Hnd Hi Hk Hne He. unfold post_api_users.
  rewrite Hk, He, truthy_JStr by done. simpl.
  unfold try_catch, bind at 1. by rewrite (User_findOne_hit i).
Qed.

Lemma User_invalid_typed (oid : ObjectId) (k e : string) (name_ : jsval) :
  k ≠ "" → e ≠ "" → castString name_ ≠ CastFail →
  User.invalid
    {| User.d_id := oid; User.d_uid := Cast k;
       User.d_name := castString name_; User.d_email := Cast e;
       User.d_storageGB := 0 |} = [].
Proof.
  intros Hk He Hn. unfold User.invalid. simpl.
  rewrite !bool_decide_eq_false_2 by done.
  by destruct (castString name_).
Qed.

Lemma post_users_created (k e : string) (body : jsobj) (s : db) :
  wf s →
  get "uid" body = JStr k → k ≠ "" →
  get "email" body = JStr e → e ≠ "" →
  castString (get "name" body) ≠ CastFail →
  k ∉ uid <$> users s → e ∉ email <$> users s →
  let u := new_user (next_oid s) k (get "name" body) e in
  post_api_users body s = Return (user_created u) (with_user u s).
Proof.
  intros Hs Hk Hkne He Hene Hn Hfresh Hefresh u.
  destruct (wf_next_oid s Hs) as [Hoid _].
  unfold post_api_users.
  rewrite Hk, He, !truthy_JStr by done. simpl.
  unfold try_catch, bind at 1. rewrite (User_findOne_miss k s Hfresh).
  unfold User.new, User.save. unfold_M. simpl.
  rewrite castString_not_beyond, User_invalid_typed by done. simpl.
  unfold User.duplicate. simpl.
  by rewrite !bool_decide_eq_false_2 by done.
Qed.

Lemma post_users_email_taken (k e : string) (body : jsobj) (s : db) :
  wf s →
  get "uid" body = JStr k → k ≠ "" →
  get "email" body = JStr e → e ≠ "" →
  castString (get "name" body) ≠ CastFail →
  k ∉ uid <$> users s → e ∈ email <$> users s →
  post_api_users body s
  = Return {| code := 500;
              body := JError (Message (DuplicateKey "email_1")) |}
      (with_oid_drawn s).
Proof.
  intros Hs Hk Hkne He Hene Hn Hfresh Hetaken.
  destruct (wf_next_oid s Hs) as [Hoid _].
  unfold post_api_users.
  rewrite Hk, He, !truthy_JStr by done. simpl.
  unfold try_catch, bind at 1. rewrite (User_findOne_miss k s Hfresh).
  unfold User.new, User.save. unfold_M. simpl.
  rewrite castString_not_beyond, User_invalid_typed by done. simpl.
  unfold User.duplicate. simpl.
  rewrite !bool_decide_eq_false_2 by done.
  by rewrite bool_decide_eq_true_2 by done.
Qed.

(** * [POST /api/payments] *)

Lemma post_payments_rejected (now : Z) (body : jsobj) (s : db) :
  truthy (get "userId" body) && truthy (get "gb" body)
  && truthy (get "totalPrice" body) && truthy (get "upiLink" body) = false →
  post_api_payments now body s = Return payment_rejected s.
Proof.
  intros H. unfold post_api_payments.
  by destruct (truthy (get "userId" body)), (truthy (get "gb" body)),
    (truthy (get "totalPrice" body)), (truthy (get "upiLink" body)).
Qed.

Lemma post_payments_created (now : Z) (u l : string) (g t : float)
    (body : jsobj) (s : db) :
  wf s →
  get "userId" body = JStr u → u ≠ "" →
  get "gb" body = JNum g → truthy (JNum g) = true →
  get "totalPrice" body = JNum t → truthy (JNum t) = true →
  get "upiLink" body = JStr l → l ≠ "" →
  let p := new_payment (next_oid s) now u g t l in
  post_api_payments now body s
  = Return {| code := 201; body := JPayment p |} (with_payment p s).
Proof.
  intros Hs Hu Hune Hg Hgne Ht Htne Hl Hlne p.
  destruct (wf_next_oid s Hs) as [_ Hoid].
  unfold post_api_payments.
  rewrite Hu, Hg, Ht, Hl, Hgne, Htne, !truthy_JStr by done. simpl.
  unfold Payment.new, Payment.save, Payment.invalid. unfold_M. simpl.
  rewrite !bool_decide_eq_false_2 by done. simpl.
  by rewrite bool_decide_eq_false_2 by done.
Qed.

(** * [PUT /api/payments/:id] *)

Lemma put_payment_hit (i : nat) (p : payment) (id st : string)
    (body : jsobj) (s : db) :
  NoDup (payment_id <$> payments s) → payments s !! i = Some p →
  castObjectId id = Cast (payment_id p) → get "status" body = JStr st →
  put_api_payments_id id body s
  = Return {| code := 200; body := JPayment (set_status (Some st) p) |}
      (set_payments (λ docs, <[i := set_status (Some st) p]> docs) s).
Proof.
  intros Hnd Hi Hid Hst. unfold put_api_payments_id, Payment.findByIdAndUpdate.
  rewrite Hid, Hst. unfold_M. simpl.
  by rewrite (list_find_key payment_id _ _ _ Hnd Hi).
Qed.

Lemma put_payment_no_status (i : nat) (p : payment) (id : string)
    (body : jsobj) (s : db) :
  NoDup (payment_id <$> payments s) → payments s !! i = Some p →
  castObjectId id = Cast (payment_id p) → get "status" body = JUndefined →
  put_api_payments_id id body s
  = Return {| code := 200; body := JPayment p |} s.
Proof.
  intros Hnd Hi Hid Hst. unfold put_api_payments_id, Payment.findByIdAndUpdate.
  rewrite Hid, Hst. unfold_M. simpl.
  by rewrite (list_find_key payment_id _ _ _ Hnd Hi).
Qed.

Lemma put_payment_miss (oid : ObjectId) (id : string)
    (upd : option (option string)) (body : jsobj) (s : db) :
  castObjectId id = Cast oid → oid ∉ payment_id <$> payments s →
  Payment.castUpdate (get "status" body) = Cast upd →
  put_api_payments_id id body s = Return payment_not_found s.
Proof.
  intros Hid Hmiss Hupd.
  unfold put_api_payments_id, Payment.findByIdAndUpdate.
  rewrite Hid, Hupd. unfold_M. simpl.
  by rewrite (list_find_key_None payment_id _ _ Hmiss).
Qed.

Lemma castUpdate_scalar (v : jsval) :
  scalar v = true → ∃ upd, Payment.castUpdate v = Cast upd.
Proof. destruct v as [| |[]| | | |]; try done; simpl; eauto. Qed.

Lemma put_payment_bad_status (oid : ObjectId) (id : string) (body : jsobj)
    (s : db) :
  castObjectId id = Cast oid →
  Payment.castUpdate (get "status" body) = CastFail →
  put_api_payments_id id body s
  = Return {| code := 500; body := JError (Message (CastError "status")) |}
      s.
Proof.
  intros Hid Hst. unfold put_api_payments_id, Payment.findByIdAndUpdate.
  by rewrite Hid, Hst.
Qed.

Lemma get_payments_listed (o : order) (s : db) :
  get_api_payments o s = Return (payments_listed (arrange o (payments s))) s.
Proof. reflexivity. Qed.

Lemma put_payment_malformed (id : string) (body : jsobj) (s : db) :
  castObjectId id = CastFail →
  put_api_payments_id id body s
  = Return {| code := 500; body := JError (Message (CastError "_id")) |} s.
Proof.
  intros Hid. unfold put_api_payments_id, Payment.findByIdAndUpdate.
  by rewrite Hid.
Qed.

(** * Adjusting the storage counter *)

(** C1, as the code has it.  Adjust-storage is additive.  For every
    stored user [u] and every number [d], positive or negative,
    [PUT /api/users/:uid/storage] with [{ storageGB: d }] on [u]'s uid
    answers 200 with the updated record and stores that record in [u]'s
    place: its [storageGB] is the sum of the stored one and [d] as
    doubles add, that is rounded to the nearest double, and its other
    fields are as they were.  No bound is checked.  Successive
    adjustments add the deltas one after the other, each answer showing
    the sum so far (from 0, the deltas 5, 5, -3 give 5, 10 and 7). *)
Theorem adjust_storage_additive (s : db) (i : nat) (u : user) :
  NoDup (uid <$> users s) → users s !! i = Some u →
  (∀ d body, get "storageGB" body = JNum d →
     let u' := with_storageGB (storageGB u + d) u in
     put_api_users_uid_storage (uid u) body s
     = Return (storage_updated u') (set_users (λ docs, <[i := u']> docs) s))
  ∧ (∀ ds,
       let u' := with_storageGB (foldl PrimFloat.add (storageGB u) ds) u in
       serve (storage_requests (uid u) ds) s
       = Some ((λ x, storage_updated (with_storageGB x u))
                 <$> running_sums (storageGB u) ds,
               set_users (λ docs, <[i := u']> docs) s)).
Proof.
  intros Hnd Hu. split.
  - intros d body Hd u'. by apply put_storage_hit.
  - intros ds u'. by apply serve_adjustments.
Qed.

Lemma adjust_storage_additive_witness :
  let u x := {| user_id := 0%N; uid := "u1"; name := Some "Ann";
                email := "ann@example.com"; storageGB := x |} in
  let s x := {| users := [u x]; payments := []; next_oid := 1%N |} in
  serve [PUT_user_storage "u1" (storage_body 5);
         PUT_user_storage "u1" (storage_body 5);
         PUT_user_storage "u1" (storage_body (-3))] (s 0%float)
  = Some ([storage_updated (u 5%float); storage_updated (u 10%float);
           storage_updated (u 7%float)], s 7%float)
  ∧ serve [PUT_user_storage "u1" (storage_body (-3))] (s 0%float)
    = Some ([storage_updated (u (-3)%float)], s (-3)%float)
  ∧ put_api_users_uid_storage "u1" (storage_body 0.5) (s 0.25%float)
    = Return (storage_updated (u 0.75%float)) (s 0.75%float).
Proof.
  intros u s.
  destruct (adjust_storage_additive (s 0%float) 0 (u 0%float)) as [_ H].
  { apply NoDup_singleton. }
  { reflexivity. }
  destruct (adjust_storage_additive (s 0.25%float) 0 (u 0.25%float))
    as [H' _].
  { apply NoDup_singleton. }
  { reflexivity. }
  split_and!.
  - exact (H [5; 5; -3]%float).
  - exact (H [-3]%float).
  - exact (H' 0.5%float (storage_body 0.5) eq_refl).
Defined.

(** C1 as stated fails: the counter is not always incremented by exactly
    the delta, because the sum is rounded.  A user is created, its
    counter is raised from 0 to 2^53 = 9007199254740992, and a delta of 1
    follows: it is answered 200 with the record as it was, the counter
    still at 2^53. *)
Lemma adjust_storage_rounds :
  let u x := {| user_id := 0%N; uid := "u1"; name := Some "Ann";
                email := "ann@example.com"; storageGB := x |} in
  let s x := {| users := [u x]; payments := []; next_oid := 1%N |} in
  serve [POST_users [("uid", JStr "u1"); ("name", JStr "Ann");
                     ("email", JStr "ann@example.com")];
         PUT_user_storage "u1" (storage_body 9007199254740992);
         PUT_user_storage "u1" (storage_body 1)] empty_db
  = Some ([user_created (u 0%float);
           storage_updated (u 9007199254740992%float);
           storage_updated (u 9007199254740992%float)],
          s 9007199254740992%float)
  ∧ Number_toString 9007199254740992 = "9007199254740992"
  ∧ Number_toString 1 = "1".
Proof. split_and!; vm_compute; reflexivity. Qed.

(** C5.  Adjust-storage rejects a [storageGB] that is not a number with
    400 and leaves the database as it is; for a number and a uid no
    stored user has, it answers 404 and leaves the database as it is, so
    no user is created. *)
Theorem adjust_storage_errors (k : string) (body : jsobj) (s : db) :
  (typeof (get "storageGB" body) ≠ "number" →
   put_api_users_uid_storage k body s
   = Return {| code := 400;
               body := JError (Text "storageGB must be a number") |} s)
  ∧ (∀ d, get "storageGB" body = JNum d → k ∉ uid <$> users s →
       put_api_users_uid_storage k body s
       = Return {| code := 404; body := JError (Text "User not found") |} s).
Proof.
  split.
  - apply put_storage_not_number.
  - intros d Hd Hk. by eapply put_storage_miss.
Qed.

Lemma adjust_storage_errors_witness :
  put_api_users_uid_storage "u1" [("storageGB", JStr "5")] empty_db
  = Return {| code := 400;
              body := JError (Text "storageGB must be a number") |} empty_db
  ∧ put_api_users_uid_storage "u1" (storage_body 5) empty_db
    = Return {| code := 404; body := JError (Text "User not found") |}
        empty_db.
Proof.
  split.
  - apply (adjust_storage_errors "u1" [("storageGB", JStr "5")] empty_db).
    discriminate.
  - apply (adjust_storage_errors "u1" (storage_body 5) empty_db) with 5%float.
    + reflexivity.
    + apply not_elem_of_nil.
Defined.

(** C10.  Adjust-storage on the uid of a stored user answers, and changes
    nothing but that user's [storageGB]: the record keeps its place, its
    [_id], [uid], [name] and [email]; every other user record, every
    payment record and the number of users are as before. *)
Theorem adjust_storage_frame (s : db) (i : nat) (u : user) (body : jsobj) :
  NoDup (uid <$> users s) → users s !! i = Some u →
  ∃ resp s',
    put_api_users_uid_storage (uid u) body s = Return resp s'
    ∧ payments s' = payments s
    ∧ length (users s') = length (users s)
    ∧ (∀ j, j ≠ i → users s' !! j = users s !! j)
    ∧ ∃ u', users s' !! i = Some u'
            ∧ user_id u' = user_id u ∧ uid u' = uid u
            ∧ name u' = name u ∧ email u' = email u.
Proof.
  intros Hnd Hu.
  destruct (decide (typeof (get "storageGB" body) = "number")) as [Hn|Hn].
  - apply typeof_number in Hn as [d Hd].
    eexists _, _. split; [by apply (put_storage_hit i)|]. simpl.
    split_and!; [done|by rewrite length_insert|..].
    + intros j Hj. by rewrite list_lookup_insert_ne.
    + exists (inc_storageGB d u). split; [|done].
      apply list_lookup_insert_eq. by eapply lookup_lt_Some.
  - eexists _, _. split; [by apply put_storage_not_number|].
    split_and!; [done..|]. by exists u.
Qed.

Lemma adjust_storage_frame_witness :
  let u1 := {| user_id := 0%N; uid := "u1"; name := Some "Ann";
               email := "ann@example.com"; storageGB := 2 |} in
  let u2 := {| user_id := 1%N; uid := "u2"; name := None;
               email := "bob@example.com"; storageGB := 9 |} in
  let p := {| payment_id := 2%N; userId := "u2"; gb := 5; totalPrice := 100;
              upiLink := "upi://x"; status := Some "PENDING";
              createdAt := 1700000000000 |} in
  let s := {| users := [u1; u2]; payments := [p]; next_oid := 3%N |} in
  ∃ resp s',
    put_api_users_uid_storage "u2" (storage_body 4) s = Return resp s'
    ∧ payments s' = [p]
    ∧ length (users s') = 2%nat
    ∧ (∀ j, j ≠ 1%nat → users s' !! j = [u1; u2] !! j)
    ∧ ∃ u', users s' !! 1%nat = Some u'
            ∧ user_id u' = 1%N ∧ uid u' = "u2"
            ∧ name u' = None ∧ email u' = "bob@example.com".
Proof.
  intros u1 u2 p s.
  apply (adjust_storage_frame s 1 u2 (storage_body 4)).
  - simpl. apply NoDup_cons. split; [|apply NoDup_singleton].
    by intros [= ]%list_elem_of_singleton.
  - reflexivity.
Defined.

(** * Creating users *)

(** C8.  Create-or-fetch answers 400 whenever [uid] or [email] is missing
    from the body, and the database is left as it is. *)
Theorem create_user_missing_field (body : jsobj) (s : db) :
  get "uid" body = JUndefined ∨ get "email" body = JUndefined →
  post_api_users body s = Return user_rejected s.
Proof.
  intros H. apply post_users_rejected.
  destruct H as [-> | ->]; [done|]. apply andb_false_r.
Qed.

Lemma create_user_missing_field_witness :
  let u := {| user_id := 0%N; uid := "u1"; name := None;
              email := "ann@example.com"; storageGB := 3 |} in
  let s := {| users := [u]; payments := []; next_oid := 1%N |} in
  post_api_users [("uid", JStr "u2"); ("name", JStr "Bob")] s
  = Return user_rejected s.
Proof.
  intros u s. apply create_user_missing_field. right. reflexivity.
Defined.

(** C2, as the code has it.  A first call with a non-empty string [uid]
    that no stored user has, a non-empty string [email] that no stored
    user has and a [name] the schema accepts creates the record, stores
    it and answers 201 "User created".  A second call with the same
    [uid], any [name] and any truthy [email] answers 200 "User already
    exists" with that record, unchanged, and leaves the database as the
    first call left it: exactly one user has that [uid].  The same holds
    of every call on the [uid] of a stored user: it answers 200 with the
    stored record and changes nothing. *)
Theorem create_user_twice (s : db) :
  wf s →
  (∀ body1 body2 k e,
     get "uid" body1 = JStr k → k ≠ "" →
     get "email" body1 = JStr e → e ≠ "" →
     castString (get "name" body1) ≠ CastFail →
     k ∉ uid <$> users s → e ∉ email <$> users s →
     get "uid" body2 = JStr k → truthy (get "email" body2) = true →
     let u := new_user (next_oid s) k (get "name" body1) e in
     post_api_users body1 s = Return (user_created u) (with_user u s)
     ∧ post_api_users body2 (with_user u s)
       = Return (user_exists u) (with_user u s)
     ∧ count_uid k (with_user u s) = 1%nat)
  ∧ (∀ i u body,
       users s !! i = Some u → uid u ≠ "" →
       get "uid" body = JStr (uid u) → truthy (get "email" body) = true →
       post_api_users body s = Return (user_exists u) s).
Proof.
  intros Hs. split.
  - intros body1 body2 k e Hk Hkne He Hene Hn Hfresh Hefresh Hk2 He2 u.
    assert (Hnd : NoDup (uid <$> users (with_user u s))).
    { apply NoDup_fmap_snoc; [apply Hs|done]. }
    assert (Hu : users (with_user u s) !! length (users s) = Some u).
    { simpl. by rewrite lookup_app_r, Nat.sub_diag. }
    split_and!.
    + by apply post_users_created.
    + by apply (post_users_exists (length (users s))).
    + apply (filter_key_length uid _ u Hnd). by eapply list_elem_of_lookup_2.
  - intros i u body Hi Hne Hk He.
    apply (post_users_exists i); [apply Hs|done..].
Qed.

Lemma create_user_twice_witness :
  let u := {| user_id := 0%N; uid := "u1"; name := Some "Ann";
              email := "ann@example.com"; storageGB := 0 |} in
  let s := {| users := [u]; payments := []; next_oid := 1%N |} in
  post_api_users [("uid", JStr "u1"); ("name", JStr "Ann");
                  ("email", JStr "ann@example.com")] empty_db
  = Return (user_created u) s
  ∧ post_api_users [("uid", JStr "u1"); ("email", JStr "other@example.com")] s
    = Return (user_exists u) s
  ∧ count_uid "u1" s = 1%nat.
Proof.
  intros u s.
  destruct (create_user_twice empty_db wf_empty_db) as [H _].
  apply (H [("uid", JStr "u1"); ("name", JStr "Ann");
            ("email", JStr "ann@example.com")]
           [("uid", JStr "u1"); ("email", JStr "other@example.com")]
           "u1" "ann@example.com");
    try done; apply not_elem_of_nil.
Defined.

(** C2 as stated fails: after the user "u1" is created, a second call
    with the same [uid] and the empty string as [email] is answered 400,
    not 200 with the stored record. *)
Lemma create_user_twice_needs_email :
  let u := {| user_id := 0%N; uid := "u1"; name := Some "Ann";
              email := "ann@example.com"; storageGB := 0 |} in
  let s := {| users := [u]; payments := []; next_oid := 1%N |} in
  serve [POST_users [("uid", JStr "u1"); ("name", JStr "Ann");
                     ("email", JStr "ann@example.com")];
         POST_users [("uid", JStr "u1"); ("name", JStr "Ann");
                     ("email", JStr "")]] empty_db
  = Some ([user_created u; user_rejected], s)
  ∧ user_rejected ≠ user_exists u.
Proof. split; [reflexivity|discriminate]. Qed.

(** C6.  [uid] and [email] are unique across the stored users, and every
    request keeps it so: a covered request is answered, the invariants
    [wf] hold after every answered request, hence in every database the
    server reaches from the empty one.  When a user with email [e] has just been created, creating a
    user with another, unused [uid] and the same email is answered 500
    with the duplicate-key error of the email index, and exactly one
    stored user has email [e]. *)
Theorem uid_email_unique :
  (∀ r s, wf s → covered r = true →
     ∃ resp s', handle r s = Return resp s'
                ∧ wf s' ∧ NoDup (uid <$> users s')
                ∧ NoDup (email <$> users s'))
  ∧ (∀ r s resp s', wf s → handle r s = Return resp s' →
       wf s' ∧ NoDup (uid <$> users s') ∧ NoDup (email <$> users s'))
  ∧ (∀ rs resps s, serve rs empty_db = Some (resps, s) →
       NoDup (uid <$> users s) ∧ NoDup (email <$> users s))
  ∧ (∀ s body1 body2 k1 k2 e,
       wf s →
       get "uid" body1 = JStr k1 → k1 ≠ "" →
       get "uid" body2 = JStr k2 → k2 ≠ "" → k1 ≠ k2 →
       get "email" body1 = JStr e → get "email" body2 = JStr e → e ≠ "" →
       castString (get "name" body1) ≠ CastFail →
       castString (get "name" body2) ≠ CastFail →
       k1 ∉ uid <$> users s → k2 ∉ uid <$> users s →
       e ∉ email <$> users s →
       let u := new_user (next_oid s) k1 (get "name" body1) e in
       post_api_users body1 s = Return (user_created u) (with_user u s)
       ∧ post_api_users body2 (with_user u s)
         = Return {| code := 500;
                     body := JError (Message (DuplicateKey "email_1")) |}
             (with_oid_drawn (with_user u s))
       ∧ users (with_oid_drawn (with_user u s)) = users s ++ [u]
       ∧ count_email e (with_oid_drawn (with_user u s)) = 1%nat).
Proof.
  split_and!.
  - intros r s Hs Hc. destruct (handle_covered r s Hc) as (resp & s' & Hr).
    pose proof (preserves_handle r s Hs) as H. rewrite Hr in H.
    exists resp, s'. split_and!; [done..|apply H|apply H].
  - intros r s resp s' Hs Hr. pose proof (preserves_handle r s Hs) as H.
    rewrite Hr in H. split_and!; [done|apply H..].
  - intros rs resps s Hserve.
    pose proof (wf_serve rs empty_db s resps wf_empty_db Hserve) as H.
    split; apply H.
  - intros s body1 body2 k1 k2 e Hs Hk1 Hk1ne Hk2 Hk2ne Hne He1 He2 Hene
      Hn1 Hn2 Hf1 Hf2 Hfe u.
    assert (Hs1 : wf (with_user u s)) by by apply wf_insert_user.
    assert (Hin : u ∈ users (with_user u s)).
    { simpl. apply elem_of_app. right. by apply list_elem_of_singleton. }
    split_and!.
    + by apply post_users_created.
    + apply (post_users_email_taken k2 e); try done.
      * simpl. rewrite fmap_app. apply not_elem_of_app. split; [done|].
        by intros ->%list_elem_of_singleton.
      * apply list_elem_of_fmap. by exists u.
    + done.
    + apply (filter_key_length email _ u); [apply Hs1|done].
Qed.

Lemma uid_email_unique_witness :
  let u := {| user_id := 0%N; uid := "u1"; name := Some "Ann";
              email := "ann@example.com"; storageGB := 0 |} in
  let s1 := {| users := [u]; payments := []; next_oid := 1%N |} in
  let s2 := {| users := [u]; payments := []; next_oid := 2%N |} in
  post_api_users [("uid", JStr "u1"); ("name", JStr "Ann");
                  ("email", JStr "ann@example.com")] empty_db
  = Return (user_created u) s1
  ∧ post_api_users [("uid", JStr "u2"); ("name", JStr "Bob");
                    ("email", JStr "ann@example.com")] s1
    = Return {| code := 500;
                body := JError (Message (DuplicateKey "email_1")) |} s2
  ∧ users s2 = [u]
  ∧ count_email "ann@example.com" s2 = 1%nat.
Proof.
  intros u s1 s2.
  destruct uid_email_unique as (_ & _ & _ & H).
  apply (H empty_db
           [("uid", JStr "u1"); ("name", JStr "Ann");
            ("email", JStr "ann@example.com")]
           [("uid", JStr "u2"); ("name", JStr "Bob");
            ("email", JStr "ann@example.com")]
           "u1" "u2" "ann@example.com");
    try done; try apply not_elem_of_nil.
  apply wf_empty_db.
Defined.

(** * Creating payments *)

Lemma post_payments_accepted (now : Z) (body : jsobj) (s : db) :
  wf s → passes_handler_check body = true → passes_schema body = true →
  let p := Payment.doc (payment_draft (next_oid s) now body) in
  post_api_payments now body s
  = Return {| code := 201; body := JPayment p |} (with_payment p s).
Proof.
  intros Hs Hh Hv p. destruct (wf_next_oid s Hs) as [_ Hoid].
  unfold passes_handler_check in Hh. unfold passes_schema in Hv.
  apply andb_prop in Hv as [[Hg Ht]%andb_prop Hv].
  apply negb_true_iff in Hg, Ht. apply bool_decide_eq_true in Hv.
  unfold post_api_payments.
  replace (_ || _ || _ || _) with false
    by (by destruct (truthy (get "userId" body)), (truthy (get "gb" body)),
          (truthy (get "totalPrice" body)), (truthy (get "upiLink" body))).
  unfold Payment.new, Payment.save. unfold_M. simpl.
  rewrite !castString_not_beyond, Hg, Ht. simpl.
  change (Payment.invalid _) with (Payment.invalid (payment_draft 0%N 0 body)).
  rewrite Hv. by rewrite bool_decide_eq_false_2 by done.
Qed.

(** C3, as the code has it.  Payment creation answers 400 whenever one of
    [userId], [gb], [totalPrice], [upiLink] is missing or falsy, so also
    for [gb = 0] or [totalPrice = 0], and then stores nothing.  When the
    four fields are truthy and of the schema's types (strings for
    [userId] and [upiLink], numbers for [gb] and [totalPrice]) the
    creation succeeds: it answers 201 and the new record is stored. *)
Theorem create_payment_validation (now : Z) (body : jsobj) (s : db) :
  (passes_handler_check body = false →
   post_api_payments now body s = Return payment_rejected s)
  ∧ (get "gb" body = JNum 0 ∨ get "totalPrice" body = JNum 0 →
     post_api_payments now body s = Return payment_rejected s)
  ∧ (∀ u g t l,
       wf s →
       get "userId" body = JStr u → get "gb" body = JNum g →
       get "totalPrice" body = JNum t → get "upiLink" body = JStr l →
       passes_handler_check body = true →
       ∃ p, post_api_payments now body s
            = Return {| code := 201; body := JPayment p |} (with_payment p s)
            ∧ payments (with_payment p s) = payments s ++ [p]).
Proof.
  split_and!.
  - apply post_payments_rejected.
  - intros H. apply post_payments_rejected.
    destruct H as [H|H]; rewrite H; simpl.
    + by rewrite andb_false_r.
    + by rewrite andb_false_r.
  - intros u g t l Hs Hu Hg Ht Hl Hh.
    unfold passes_handler_check in Hh. rewrite Hu, Hg, Ht, Hl in Hh.
    apply andb_prop in Hh as [[[Hu' Hg']%andb_prop Ht']%andb_prop Hl'].
    apply negb_true_iff, bool_decide_eq_false in Hu', Hl'.
    eexists. split; [by eapply post_payments_created|done].
Qed.

Lemma create_payment_validation_witness :
  let body0 := [("userId", JStr "u1"); ("gb", JNum 0);
                ("totalPrice", JNum 100); ("upiLink", JStr "upi://x")] in
  let body := [("userId", JStr "u1"); ("gb", JNum 5);
               ("totalPrice", JNum 100); ("upiLink", JStr "upi://x")] in
  post_api_payments 1700000000000 body0 empty_db
  = Return payment_rejected empty_db
  ∧ ∃ p, post_api_payments 1700000000000 body empty_db
         = Return {| code := 201; body := JPayment p |}
             (with_payment p empty_db)
         ∧ payments (with_payment p empty_db) = payments empty_db ++ [p].
Proof.
  intros body0 body. split.
  - apply (create_payment_validation 1700000000000 body0 empty_db).
    left. reflexivity.
  - apply (create_payment_validation 1700000000000 body empty_db)
      with "u1" 5%float 100%float "upi://x"; try reflexivity.
    apply wf_empty_db.
Defined.

(** C3 as stated fails: with [gb] the string "abc", all four fields are
    truthy and the handler's check passes, but ["abc"] is no number and
    [save()] refuses the document; the answer is 500 and nothing is
    stored. *)
Lemma create_payment_truthy_not_enough :
  let body := [("userId", JStr "u1"); ("gb", JStr "abc");
               ("totalPrice", JNum 100); ("upiLink", JStr "upi://x")] in
  passes_handler_check body = true
  ∧ post_api_payments 1700000000000 body empty_db
    = Return {| code := 500;
                body := JError (Message (ValidationError ["gb"])) |}
        (with_oid_drawn empty_db)
  ∧ payments (with_oid_drawn empty_db) = [].
Proof. split_and!; reflexivity. Qed.

(** A required path that validation lets through has been cast. *)
Lemma invalid_string_nil (path : string) (v : jsval) :
  invalid_string true path (castString v) = [] →
  ∃ x, castString v = Cast x ∧ x ≠ "".
Proof.
  pose proof (castString_not_beyond v) as Hb.
  destruct (castString v) as [x| | |]; try done. simpl.
  case_bool_decide; [done|]. eauto.
Qed.

Lemma invalid_number_nil (path : string) (c : cast float) :
  is_beyond c = false → invalid_number true path c = [] → ∃ x, c = Cast x.
Proof. destruct c; try done. eauto. Qed.

(** C7, as the code has it.  For every payment creation whose four fields
    pass validation (the check of the handler and the validation of
    [save()]), the answer is 201 with the created record, and that
    record is stored: its [status] is "PENDING", its [createdAt] is the
    time of creation, its identifier is drawn from the generator and
    differs from the identifier of every stored payment, and [userId],
    [gb], [totalPrice] and [upiLink] are the inputs cast to the types of
    the schema: the inputs themselves when they are strings (for [userId]
    and [upiLink]) and numbers (for [gb] and [totalPrice]). *)
Theorem create_payment_record (now : Z) (body : jsobj) (s : db) :
  wf s → passes_handler_check body = true → passes_schema body = true →
  ∃ p,
    post_api_payments now body s
    = Return {| code := 201; body := JPayment p |} (with_payment p s)
    ∧ payments (with_payment p s) = payments s ++ [p]
    ∧ status p = Some "PENDING" ∧ createdAt p = now
    ∧ payment_id p = next_oid s
    ∧ (payment_id p ∉ payment_id <$> payments s)
    ∧ NoDup (payment_id <$> payments (with_payment p s))
    ∧ castString (get "userId" body) = Cast (userId p)
    ∧ SchemaNumber_cast (get "gb" body) = Cast (gb p)
    ∧ SchemaNumber_cast (get "totalPrice" body) = Cast (totalPrice p)
    ∧ castString (get "upiLink" body) = Cast (upiLink p)
    ∧ (∀ u, get "userId" body = JStr u → userId p = u)
    ∧ (∀ g, get "gb" body = JNum g → gb p = g)
    ∧ (∀ t, get "totalPrice" body = JNum t → totalPrice p = t)
    ∧ (∀ l, get "upiLink" body = JStr l → upiLink p = l).
Proof.
  intros Hs Hh Hv. destruct (wf_next_oid s Hs) as [_ Hoid].
  eexists. split; [by apply post_payments_accepted|].
  unfold passes_schema in Hv.
  apply andb_prop in Hv as [[Hg Ht]%andb_prop Hv].
  apply negb_true_iff in Hg, Ht. apply bool_decide_eq_true in Hv.
  unfold Payment.invalid in Hv. simpl in Hv.
  apply app_nil in Hv as [Hu Hv]. apply app_nil in Hv as [Hg' Hv].
  apply app_nil in Hv as [Ht' Hl].
  apply invalid_string_nil in Hu as (u & Hu & _).
  apply invalid_string_nil in Hl as (l & Hl & _).
  apply invalid_number_nil in Hg' as (g & Hg'); [|done].
  apply invalid_number_nil in Ht' as (t & Ht'); [|done].
  split_and!; try done.
  - simpl. apply NoDup_fmap_snoc; [apply Hs|done].
  - simpl. by rewrite Hu.
  - simpl. by rewrite Hg'.
  - simpl. by rewrite Ht'.
  - simpl. by rewrite Hl.
  - intros u' Hu'. simpl. by rewrite Hu'.
  - intros g' Hg''. simpl. by rewrite Hg''.
  - intros t' Ht''. simpl. by rewrite Ht''.
  - intros l' Hl'. simpl. by rewrite Hl'.
Qed.

Lemma create_payment_record_witness :
  let body := [("userId", JStr "u1"); ("gb", JNum 5);
               ("totalPrice", JNum 100); ("upiLink", JStr "upi://x")] in
  ∃ p,
    post_api_payments 1700000000000 body empty_db
    = Return {| code := 201; body := JPayment p |} (with_payment p empty_db)
    ∧ payments (with_payment p empty_db) = payments empty_db ++ [p]
    ∧ status p = Some "PENDING" ∧ createdAt p = 1700000000000
    ∧ payment_id p = next_oid empty_db
    ∧ (payment_id p ∉ payment_id <$> payments empty_db)
    ∧ NoDup (payment_id <$> payments (with_payment p empty_db))
    ∧ castString (get "userId" body) = Cast (userId p)
    ∧ SchemaNumber_cast (get "gb" body) = Cast (gb p)
    ∧ SchemaNumber_cast (get "totalPrice" body) = Cast (totalPrice p)
    ∧ castString (get "upiLink" body) = Cast (upiLink p)
    ∧ (∀ u, get "userId" body = JStr u → userId p = u)
    ∧ (∀ g, get "gb" body = JNum g → gb p = g)
    ∧ (∀ t, get "totalPrice" body = JNum t → totalPrice p = t)
    ∧ (∀ l, get "upiLink" body = JStr l → upiLink p = l).
Proof.
  intros body. apply (create_payment_record 1700000000000 body empty_db).
  - apply wf_empty_db.
  - reflexivity.
  - reflexivity.
Defined.

(** C7 as stated fails: inputs that pass validation are stored as the
    schema casts them, which need not be the inputs.  With [userId] the
    number 7, [gb] the boolean [true] and [totalPrice] the string "+100"
    the creation is answered 201, and the stored record has [userId]
    "7", [gb] 1 and [totalPrice] 100. *)
Lemma create_payment_casts_inputs :
  let body := [("userId", JNum 7); ("gb", JBool true);
               ("totalPrice", JStr "+100"); ("upiLink", JStr "upi://x")] in
  let p := {| payment_id := 0%N; userId := "7"; gb := 1; totalPrice := 100;
              upiLink := "upi://x"; status := Some "PENDING";
              createdAt := 1700000000000 |} in
  passes_handler_check body = true
  ∧ passes_schema body = true
  ∧ post_api_payments 1700000000000 body empty_db
    = Return {| code := 201; body := JPayment p |} (with_payment p empty_db)
  ∧ JStr (userId p) ≠ get "userId" body
  ∧ JNum (gb p) ≠ get "gb" body
  ∧ JNum (totalPrice p) ≠ get "totalPrice" body.
Proof. split_and!; try (vm_compute; reflexivity); discriminate. Qed.

(** * Updating the status of a payment *)

(** C4, as the code has it.  For every stored payment, addressed by a
    string that denotes its identifier (24 hexadecimal digits), and every
    status string, whether or not it is one of PENDING, SUCCESS, FAILED,
    the update answers 200 with the record whose [status] is that
    string, stores it in place, and a listing that follows shows it, in
    whatever order the listing comes.  For a well-formed identifier no
    stored payment has and a status that is a string, a number, a
    boolean, [null] or missing, the update answers 404 and changes
    nothing.  For an identifier the cast to [ObjectId] refuses, the
    update answers 500 with the cast error; so it does for an array as
    status, whatever the identifier denotes. *)
Theorem update_payment_status (s : db) (id : string) (body : jsobj) :
  NoDup (payment_id <$> payments s) →
  (∀ i p st o,
     payments s !! i = Some p → castObjectId id = Cast (payment_id p) →
     get "status" body = JStr st →
     let p' := set_status (Some st) p in
     let s' := set_payments (λ docs, <[i := p']> docs) s in
     put_api_payments_id id body s
     = Return {| code := 200; body := JPayment p' |} s'
     ∧ status p' = Some st
     ∧ payments s' !! i = Some p'
     ∧ ∃ ps, get_api_payments o s' = Return (payments_listed ps) s'
             ∧ p' ∈ ps ∧ ps ≡ₚ payments s')
  ∧ (∀ oid,
       castObjectId id = Cast oid → oid ∉ payment_id <$> payments s →
       scalar (get "status" body) = true →
       put_api_payments_id id body s = Return payment_not_found s)
  ∧ (castObjectId id = CastFail →
     put_api_payments_id id body s
     = Return {| code := 500; body := JError (Message (CastError "_id")) |}
         s)
  ∧ (∀ oid items,
       castObjectId id = Cast oid → get "status" body = JArr items →
       put_api_payments_id id body s
       = Return {| code := 500;
                   body := JError (Message (CastError "status")) |} s).
Proof.
  intros Hnd. split_and!.
  - intros i p st o Hi Hid Hst p' s'.
    assert (Hi' : payments s' !! i = Some p').
    { apply list_lookup_insert_eq. by eapply lookup_lt_Some. }
    split_and!; [by apply put_payment_hit|done..|].
    exists (arrange o (payments s')). split_and!.
    + apply get_payments_listed.
    + rewrite (arrange_perm o). by eapply list_elem_of_lookup_2.
    + apply arrange_perm.
  - intros oid Hid Hmiss Hst.
    destruct (castUpdate_scalar _ Hst) as [upd Hupd].
    by eapply put_payment_miss.
  - apply put_payment_malformed.
  - intros oid items Hid Hst. apply (put_payment_bad_status oid); [done|].
    by rewrite Hst.
Qed.

Lemma update_payment_status_witness :
  let p st := {| payment_id := 10%N; userId := "u1"; gb := 5;
                 totalPrice := 100; upiLink := "upi://x"; status := st;
                 createdAt := 1700000000000 |} in
  let s st := {| users := []; payments := [p st]; next_oid := 11%N |} in
  let body := [("status", JStr "REFUNDED")] in
  (put_api_payments_id "00000000000000000000000A" body (s (Some "PENDING"))
   = Return {| code := 200; body := JPayment (p (Some "REFUNDED")) |}
       (s (Some "REFUNDED"))
   ∧ status (p (Some "REFUNDED")) = Some "REFUNDED"
   ∧ payments (s (Some "REFUNDED")) !! 0%nat = Some (p (Some "REFUNDED"))
   ∧ ∃ ps, get_api_payments insertion_order (s (Some "REFUNDED"))
           = Return (payments_listed ps) (s (Some "REFUNDED"))
           ∧ p (Some "REFUNDED") ∈ ps
           ∧ ps ≡ₚ payments (s (Some "REFUNDED")))
  ∧ put_api_payments_id "00000000000000000000000b" body (s (Some "PENDING"))
    = Return payment_not_found (s (Some "PENDING"))
  ∧ put_api_payments_id "abc" body (s (Some "PENDING"))
    = Return {| code := 500; body := JError (Message (CastError "_id")) |}
        (s (Some "PENDING"))
  ∧ put_api_payments_id "00000000000000000000000a"
      [("status", JArr [JStr "SUCCESS"])] (s (Some "PENDING"))
    = Return {| code := 500; body := JError (Message (CastError "status")) |}
        (s (Some "PENDING")).
Proof.
  intros p s body. split; [|split; [|split]].
  - destruct (update_payment_status (s (Some "PENDING"))
                "00000000000000000000000A" body) as (H & _ & _ & _).
    { apply NoDup_singleton. }
    exact (H 0%nat (p (Some "PENDING")) "REFUNDED" insertion_order
             eq_refl eq_refl eq_refl).
  - destruct (update_payment_status (s (Some "PENDING"))
                "00000000000000000000000b" body) as (_ & H & _ & _).
    { apply NoDup_singleton. }
    apply (H 11%N); [reflexivity| |reflexivity].
    by intros [= ]%list_elem_of_singleton.
  - destruct (update_payment_status (s (Some "PENDING")) "abc" body)
      as (_ & _ & H & _).
    { apply NoDup_singleton. }
    by apply H.
  - destruct (update_payment_status (s (Some "PENDING"))
                "00000000000000000000000a"
                [("status", JArr [JStr "SUCCESS"])]) as (_ & _ & _ & H).
    { apply NoDup_singleton. }
    by apply (H 10%N [JStr "SUCCESS"]).
Defined.

(** C4 as stated fails: the identifier "abc" matches no record, and the
    update is answered 500, not 404. *)
Lemma update_payment_malformed_id :
  castObjectId "abc" = CastFail
  ∧ put_api_payments_id "abc" [("status", JStr "SUCCESS")] empty_db
    = Return {| code := 500; body := JError (Message (CastError "_id")) |}
        empty_db
  ∧ {| code := 500; body := JError (Message (CastError "_id")) |}
    ≠ payment_not_found.
Proof. split_and!; [reflexivity..|discriminate]. Qed.

(** C9.  For every stored payment, an update whose body has no [status]
    answers 200 with the stored record, all of its fields as they were,
    and leaves the database as it is.  The payment is addressed by any
    string that denotes its identifier, such as the 24 digits a response
    shows for it. *)
Theorem update_payment_without_status (s : db) (i : nat) (p : payment)
    (body : jsobj) :
  NoDup (payment_id <$> payments s) → payments s !! i = Some p →
  get "status" body = JUndefined →
  (∀ id, castObjectId id = Cast (payment_id p) →
     put_api_payments_id id body s
     = Return {| code := 200; body := JPayment p |} s)
  ∧ ((payment_id p < 2 ^ 96)%N →
     put_api_payments_id (toHexString (payment_id p)) body s
     = Return {| code := 200; body := JPayment p |} s).
Proof.
  intros Hnd Hi Hst. split.
  - intros id Hid. by apply (put_payment_no_status i).
  - intros Hlt. apply (put_payment_no_status i); try done.
    by apply castObjectId_toHexString.
Qed.

Lemma update_payment_without_status_witness :
  let p := {| payment_id := 10%N; userId := "u1"; gb := 5;
              totalPrice := 100; upiLink := "upi://x";
              status := Some "SUCCESS"; createdAt := 1700000000000 |} in
  let s := {| users := []; payments := [p]; next_oid := 11%N |} in
  put_api_payments_id "00000000000000000000000a" [("note", JStr "x")] s
  = Return {| code := 200; body := JPayment p |} s.
Proof.
  intros p s.
  destruct (update_payment_without_status s 0 p [("note", JStr "x")])
    as [H _].
  - apply NoDup_singleton.
  - reflexivity.
  - reflexivity.
  - by apply H.
Defined.


(** * Further properties of the routes *)

(** ** Reading *)

(** X1.  [GET /api/users/:uid] answers 200 with the stored record when a
    user has that uid and 404 "User not found" when none has; either way
    the database is as before. *)
Theorem fetch_user_by_uid (s : db) :
  NoDup (uid <$> users s) →
  (∀ i u, users s !! i = Some u →
     get_api_users_uid (uid u) s = Return (user_found u) s)
  ∧ (∀ k, k ∉ uid <$> users s →
       get_api_users_uid k s = Return user_not_found s).
Proof.
  intros Hnd. split.
  - intros i u Hi. unfold get_api_users_uid, try_catch, bind at 1.
    by rewrite (User_findOne_hit i).
  - intros k Hk. unfold get_api_users_uid, try_catch, bind at 1.
    by rewrite User_findOne_miss.
Qed.

Lemma fetch_user_by_uid_witness :
  let u1 := {| user_id := 0%N; uid := "u1"; name := Some "Ann";
               email := "ann@example.com"; storageGB := 2 |} in
  let u2 := {| user_id := 1%N; uid := "u2"; name := None;
               email := "bob@example.com"; storageGB := 9 |} in
  let s := {| users := [u1; u2]; payments := []; next_oid := 2%N |} in
  get_api_users_uid "u2" s = Return (user_found u2) s
  ∧ get_api_users_uid "U2" s = Return user_not_found s.
Proof.
  intros u1 u2 s.
  destruct (fetch_user_by_uid s) as [Hhit Hmiss].
  - simpl. apply NoDup_cons. split; [|apply NoDup_singleton].
    by intros [= ]%list_elem_of_singleton.
  - split; [exact (Hhit 1%nat u2 eq_refl)|]. apply Hmiss. simpl.
    intros [[= ]|[[= ]|[]%elem_of_nil]%elem_of_cons]%elem_of_cons.
Defined.

(** X2.  The three GET routes answer every request and leave the database
    exactly as it was; the listing carries every stored payment once, in
    whatever order the store returns them, and is a 200 with the empty
    list when there is none. *)
Theorem reads_change_nothing (s : db) :
  (∀ k, ∃ resp, get_api_users_uid k s = Return resp s)
  ∧ (∀ o, ∃ ps, get_api_payments o s = Return (payments_listed ps) s
                ∧ ps ≡ₚ payments s)
  ∧ (∀ o, payments s = [] →
       get_api_payments o s = Return (payments_listed []) s)
  ∧ (∃ resp, get_root s = Return resp s ∧ code resp = 200).
Proof.
  split_and!.
  - intros k. unfold get_api_users_uid, User.findOne. unfold_M. simpl.
    destruct (list_find _ _) as [[i u]|]; simpl; eauto.
  - intros o. exists (arrange o (payments s)).
    split; [apply get_payments_listed|apply arrange_perm].
  - intros o Hempty. rewrite get_payments_listed.
    assert (arrange o (payments s) = []) as ->; [|done].
    apply Permutation_nil_r. rewrite (arrange_perm o). by rewrite Hempty.
  - eexists. split; reflexivity.
Qed.

Lemma reads_change_nothing_witness :
  get_api_payments insertion_order empty_db
  = Return (payments_listed []) empty_db.
Proof.
  destruct (reads_change_nothing empty_db) as (_ & _ & H & _).
  by apply H.
Defined.

(** ** Writing, then reading *)

(** X3.  A user that [POST /api/users] has just created is what
    [GET /api/users/:uid] returns for its uid: the record with the given
    uid, email and name, and a [storageGB] of 0. *)
Theorem create_then_fetch (s : db) (body : jsobj) (k e : string) :
  wf s →
  get "uid" body = JStr k → k ≠ "" →
  get "email" body = JStr e → e ≠ "" →
  castString (get "name" body) ≠ CastFail →
  k ∉ uid <$> users s → e ∉ email <$> users s →
  ∃ u,
    serve [POST_users body; GET_user k] s
    = Some ([user_created u; user_found u], with_user u s)
    ∧ uid u = k ∧ email u = e ∧ storageGB u = 0%float
    ∧ name u = cast_option (castString (get "name" body)).
Proof.
  intros Hs Hk Hkne He Hene Hn Hfresh Hefresh.
  exists (new_user (next_oid s) k (get "name" body) e).
  split; [|done]. cbn [serve handle].
  rewrite (post_users_created k e) by done.
  set (u := new_user _ _ _ _).
  assert (Hnd : NoDup (uid <$> users (with_user u s))).
  { apply NoDup_fmap_snoc; [apply Hs|done]. }
  assert (Hu : users (with_user u s) !! length (users s) = Some u).
  { simpl. by rewrite lookup_app_r, Nat.sub_diag. }
  unfold get_api_users_uid, try_catch, bind at 1.
  change k with (uid u). by rewrite (User_findOne_hit _ u _ Hnd Hu).
Qed.

Lemma create_then_fetch_witness :
  ∃ u,
    serve [POST_users [("uid", JStr "u1"); ("email", JStr "ann@example.com")];
           GET_user "u1"] empty_db
    = Some ([user_created u; user_found u], with_user u empty_db)
    ∧ uid u = "u1" ∧ email u = "ann@example.com" ∧ storageGB u = 0%float
    ∧ name u = None.
Proof.
  apply (create_then_fetch empty_db
           [("uid", JStr "u1"); ("email", JStr "ann@example.com")]
           "u1" "ann@example.com");
    try done; try apply not_elem_of_nil.
  apply wf_empty_db.
Defined.

(** X4.  After a storage adjustment, [GET /api/users/:uid] returns the
    record the adjustment answered with, which is the record now
    stored. *)
Theorem adjust_then_fetch (s : db) (i : nat) (u : user) (d : float) :
  NoDup (uid <$> users s) → users s !! i = Some u →
  ∃ u' s',
    serve [PUT_user_storage (uid u) (storage_body d); GET_user (uid u)] s
    = Some ([storage_updated u'; user_found u'], s')
    ∧ users s' !! i = Some u'
    ∧ same_user_but_storage u u'.
Proof.
  intros Hnd Hu.
  exists (inc_storageGB d u),
    (set_users (λ docs, <[i := inc_storageGB d u]> docs) s).
  set (u1 := inc_storageGB d u).
  set (s1 := set_users (λ docs, <[i := u1]> docs) s).
  assert (Hu1 : users s1 !! i = Some u1).
  { apply list_lookup_insert_eq. by eapply lookup_lt_Some. }
  assert (Hnd1 : NoDup (uid <$> users s1)).
  { unfold s1. simpl. by rewrite (fmap_insert_same_key uid _ _ u u1). }
  split_and!; [|done..]. cbn [serve handle].
  rewrite (put_storage_hit i u d (storage_body d) s Hnd Hu eq_refl).
  fold u1 s1. unfold get_api_users_uid, try_catch, bind at 1.
  change (uid u) with (uid u1). by rewrite (User_findOne_hit i u1 s1).
Qed.

Lemma adjust_then_fetch_witness :
  let u x := {| user_id := 0%N; uid := "u1"; name := Some "Ann";
                email := "ann@example.com"; storageGB := x |} in
  let s x := {| users := [u x]; payments := []; next_oid := 1%N |} in
  ∃ u' s',
    serve [PUT_user_storage "u1" (storage_body (-4)); GET_user "u1"]
      (s 1%float)
    = Some ([storage_updated u'; user_found u'], s')
    ∧ users s' !! 0%nat = Some u'
    ∧ same_user_but_storage (u 1%float) u'.
Proof.
  intros u s.
  apply (adjust_then_fetch (s 1%float) 0 (u 1%float) (-4)).
  - apply NoDup_singleton.
  - reflexivity.
Defined.

(** X5.  A payment that [POST /api/payments] has just created is in the
    listing that follows, together with every payment stored before and
    nothing else, in whatever order the store returns them. *)
Theorem create_payment_then_list (now : Z) (body : jsobj) (s : db)
    (o : order) :
  wf s → passes_handler_check body = true → passes_schema body = true →
  ∃ p ps,
    serve [POST_payments now body; GET_payments o] s
    = Some ([payment_created p; payments_listed ps], with_payment p s)
    ∧ p ∈ ps
    ∧ ps ≡ₚ p :: payments s.
Proof.
  intros Hs Hh Hv.
  set (p := Payment.doc (payment_draft (next_oid s) now body)).
  exists p, (arrange o (payments s ++ [p])). split_and!.
  - cbn [serve handle]. by rewrite post_payments_accepted.
  - rewrite (arrange_perm o). apply elem_of_app. right.
    by apply list_elem_of_singleton.
  - rewrite (arrange_perm o). by rewrite Permutation_app_comm.
Qed.

Lemma create_payment_then_list_witness :
  let p0 := {| payment_id := 0%N; userId := "u9"; gb := 1; totalPrice := 20;
               upiLink := "upi://a"; status := Some "SUCCESS";
               createdAt := 1600000000000 |} in
  let s := {| users := []; payments := [p0]; next_oid := 1%N |} in
  ∃ p ps,
    serve [POST_payments 1700000000000
             [("userId", JStr "u1"); ("gb", JNum 5);
              ("totalPrice", JNum 100); ("upiLink", JStr "upi://x")];
           GET_payments insertion_order] s
    = Some ([payment_created p; payments_listed ps], with_payment p s)
    ∧ p ∈ ps
    ∧ ps ≡ₚ p :: payments s.
Proof.
  intros p0 s. apply (create_payment_then_list 1700000000000 _ s).
  - split; simpl; repeat constructor; try apply not_elem_of_nil.
  - reflexivity.
  - reflexivity.
Defined.

(** ** What every route does, and never does *)

(** X6.  Every request of the covered fragment is answered, and with one
    of the status codes 200, 201, 400, 404, 500; whatever the request,
    an answer carries one of these codes and no exception of a store
    operation escapes the handler: each is caught and answered. *)
Theorem answers_use_known_codes (r : request) (s : db) :
  (covered r = true →
   ∃ resp s', handle r s = Return resp s' ∧ code resp ∈ status_codes)
  ∧ (∀ resp s', handle r s = Return resp s' → code resp ∈ status_codes)
  ∧ (∀ e s', handle r s ≠ Raise e s').
Proof.
  assert (Hcodes : ∀ resp s',
            handle r s = Return resp s' → code resp ∈ status_codes).
  { intros resp s' H. destruct r; route_paths.
    all: apply list_elem_of_In; simpl; tauto. }
  split_and!.
  - intros Hc. destruct (handle_covered r s Hc) as (resp & s' & Hr).
    exists resp, s'. split; [done|]. by eapply Hcodes.
  - done.
  - intros e s'. apply handle_no_raise.
Qed.

Lemma answers_use_known_codes_witness :
  ∃ resp s',
    handle (POST_payments 1700000000000
              [("userId", JStr "u1"); ("gb", JStr "5abc");
               ("totalPrice", JNum 100); ("upiLink", JStr "upi://x")])
      empty_db
    = Return resp s'
    ∧ code resp ∈ status_codes.
Proof.
  destruct (answers_use_known_codes
              (POST_payments 1700000000000
                 [("userId", JStr "u1"); ("gb", JStr "5abc");
                  ("totalPrice", JNum 100); ("upiLink", JStr "upi://x")])
              empty_db) as [H _].
  by apply H.
Defined.

(** X7.  A request answered with an error status (400, 404 or 500) has
    changed neither collection: no user and no payment is added, removed
    or modified by a failed request. *)
Theorem errors_change_nothing (r : request) (s s' : db) (resp : response) :
  handle r s = Return resp s' → 400 ≤ code resp →
  users s' = users s ∧ payments s' = payments s.
Proof.
  intros H Hc. destruct r; route_paths; try done; try lia.
Qed.

Lemma errors_change_nothing_witness :
  let u := {| user_id := 0%N; uid := "u1"; name := Some "Ann";
              email := "ann@example.com"; storageGB := 0 |} in
  let s := {| users := [u]; payments := []; next_oid := 1%N |} in
  users (with_oid_drawn s) = [u] ∧ payments (with_oid_drawn s) = [].
Proof.
  intros u s.
  apply (errors_change_nothing
           (POST_users [("uid", JStr "u2"); ("email", JStr "ann@example.com")])
           s (with_oid_drawn s)
           {| code := 500;
              body := JError (Message (DuplicateKey "email_1")) |}).
  - reflexivity.
  - simpl. lia.
Defined.

(** X9.  The routes under [/api/users] never change the payments, and
    the routes under [/api/payments] never change the users. *)
Theorem routes_are_separate (r : request) (s s' : db) (resp : response) :
  handle r s = Return resp s' →
  (user_route r = true → payments s' = payments s)
  ∧ (payment_route r = true → users s' = users s).
Proof.
  intros H. destruct r; route_paths; done.
Qed.

Lemma routes_are_separate_witness :
  let u := {| user_id := 0%N; uid := "u1"; name := None;
              email := "ann@example.com"; storageGB := 0 |} in
  let p := {| payment_id := 1%N; userId := "u1"; gb := 5; totalPrice := 100;
              upiLink := "upi://x"; status := Some "PENDING";
              createdAt := 1700000000000 |} in
  let s := {| users := [u]; payments := [p]; next_oid := 2%N |} in
  payments (set_users (λ docs, <[0%nat := inc_storageGB 3 u]> docs) s) = [p].
Proof.
  intros u p s.
  destruct (routes_are_separate (PUT_user_storage "u1" (storage_body 3)) s
              (set_users (λ docs, <[0%nat := inc_storageGB 3 u]> docs) s)
              (storage_updated (inc_storageGB 3 u))) as [H _].
  - reflexivity.
  - by apply H.
Defined.

(** X15.  [POST /api/users] stores a user exactly when it answers 201: then
    the answer carries the one record appended to the collection, with a
    [storageGB] of 0; with any other answer the users are as before.
    Likewise [POST /api/payments] stores a payment exactly when it
    answers 201, and the answer carries the record appended. *)
Theorem stored_iff_created (s s' : db) (resp : response) :
  (∀ req, post_api_users req s = Return resp s' →
     (code resp = 201
      ∧ ∃ u, body resp = JMessageUser "User created" u
             ∧ users s' = users s ++ [u] ∧ storageGB u = 0%float)
     ∨ (code resp ≠ 201 ∧ users s' = users s))
  ∧ (∀ now req, post_api_payments now req s = Return resp s' →
       (code resp = 201
        ∧ ∃ p, body resp = JPayment p ∧ payments s' = payments s ++ [p]
               ∧ status p = Some "PENDING" ∧ createdAt p = now)
       ∨ (code resp ≠ 201 ∧ payments s' = payments s)).
Proof.
  split.
  - intros req H. route_paths; try (by right); left; split; eauto.
  - intros now req H. route_paths; try (by right); left; split; eauto 7.
Qed.

Lemma stored_iff_created_witness :
  let s := with_oid_drawn empty_db in
  let resp := {| code := 500;
                 body := JError (Message (ValidationError ["gb"])) |} in
  (code resp = 201
   ∧ ∃ p, body resp = JPayment p ∧ payments s = payments empty_db ++ [p]
          ∧ status p = Some "PENDING" ∧ createdAt p = 7)
  ∨ (code resp ≠ 201 ∧ payments s = payments empty_db).
Proof.
  intros s resp.
  destruct (stored_iff_created empty_db s resp) as [_ H].
  apply (H 7 [("userId", JStr "u1"); ("gb", JStr "abc");
              ("totalPrice", JNum 100); ("upiLink", JStr "upi://x")]).
  reflexivity.
Defined.

Lemma keeps_documents_refl (s : db) : keeps_documents s s.
Proof. split; intros i x Hx; exists x; by repeat split. Qed.

Lemma keeps_documents_trans (s1 s2 s3 : db) :
  keeps_documents s1 s2 → keeps_documents s2 s3 → keeps_documents s1 s3.
Proof.
  intros [Hu12 Hp12] [Hu23 Hp23]. split.
  - intros i u Hi. destruct (Hu12 i u Hi) as (u2 & Hi2 & H2).
    destruct (Hu23 i u2 Hi2) as (u3 & Hi3 & H3). exists u3. split; [done|].
    unfold same_user_but_storage in *.
    destruct H2 as (? & ? & ? & ?), H3 as (? & ? & ? & ?).
    repeat split; congruence.
  - intros i p Hi. destruct (Hp12 i p Hi) as (p2 & Hi2 & H2).
    destruct (Hp23 i p2 Hi2) as (p3 & Hi3 & H3). exists p3. split; [done|].
    unfold same_payment_but_status in *.
    destruct H2 as (? & ? & ? & ? & ? & ?), H3 as (? & ? & ? & ? & ? & ?).
    repeat split; congruence.
Qed.

Lemma keeps_documents_step (us : list user) (ps : list payment) (s : db)
    (n : ObjectId) :
  (∀ i u, users s !! i = Some u →
     ∃ u', us !! i = Some u' ∧ same_user_but_storage u u') →
  (∀ i p, payments s !! i = Some p →
     ∃ p', ps !! i = Some p' ∧ same_payment_but_status p p') →
  keeps_documents s {| users := us; payments := ps; next_oid := n |}.
Proof. by split. Qed.

Lemma lookup_kept {A} (R : A → A → Prop) (l : list A) (i j : nat) (x y y' : A) :
  (∀ z, R z z) → l !! j = Some y → R y y' → l !! i = Some x →
  ∃ x', <[j := y']> l !! i = Some x' ∧ R x x'.
Proof.
  intros Hrefl Hj Hy Hi. destruct (decide (i = j)) as [->|Hne].
  - exists y'. rewrite list_lookup_insert_eq by by eapply lookup_lt_Some.
    split; [done|]. congruence.
  - exists x. by rewrite list_lookup_insert_ne.
Qed.

Lemma handle_keeps_documents (r : request) (s s' : db) (resp : response) :
  handle r s = Return resp s' → keeps_documents s s'.
Proof.
  intros H. destruct r; route_paths; try apply keeps_documents_refl.
  all: apply keeps_documents_step; intros j x Hx; eauto.
  all: try (exists x; split; [by apply lookup_app_l_Some|by repeat split]).
  all: try (exists x; by repeat split).
  all: match goal with
       | Hf : list_find _ _ = Some (?i, ?y) |- _ =>
           apply list_find_Some in Hf as (Hi & _ & _)
       end.
  - eapply (lookup_kept same_user_but_storage); eauto; by repeat split.
  - eapply (lookup_kept same_payment_but_status); eauto; by repeat split.
Qed.

(** X8.  No request deletes or replaces a document.  After any sequence
    of answered requests every user stored before is still at its place
    with the same [_id], [uid], [name] and [email] (only its counter may
    differ), every payment stored before is still at its place with all
    its fields but [status], and neither collection has shrunk. *)
Theorem nothing_is_deleted (rs : list request) (s s' : db)
    (resps : list response) :
  serve rs s = Some (resps, s') →
  keeps_documents s s'
  ∧ (length (users s) ≤ length (users s'))%nat
  ∧ (length (payments s) ≤ length (payments s'))%nat.
Proof.
  intros Hserve.
  assert (Hkeeps : keeps_documents s s').
  { revert s resps Hserve. induction rs as [|r rs IH]; intros s resps Hserve.
    - injection Hserve as _ <-. apply keeps_documents_refl.
    - simpl in Hserve. destruct (handle r s) as [a s1|e s1|] eqn:Hr; [|done..].
      destruct (serve rs s1) as [[resps' s2]|] eqn:Hrest; [|done].
      injection Hserve as _ <-.
      eapply keeps_documents_trans; [by eapply handle_keeps_documents|eauto]. }
  split; [done|]. destruct Hkeeps as [Hu Hp]. split.
  - destruct (users s) as [|u us] eqn:Hus using rev_ind; [simpl; lia|].
    destruct (Hu (length us) u) as (u' & Hu' & _).
    { by rewrite lookup_app_r, Nat.sub_diag. }
    apply lookup_lt_Some in Hu'. rewrite length_app. simpl. lia.
  - destruct (payments s) as [|p ps] eqn:Hps using rev_ind; [simpl; lia|].
    destruct (Hp (length ps) p) as (p' & Hp' & _).
    { by rewrite lookup_app_r, Nat.sub_diag. }
    apply lookup_lt_Some in Hp'. rewrite length_app. simpl. lia.
Qed.

Lemma nothing_is_deleted_witness :
  let u x := {| user_id := 0%N; uid := "u1"; name := Some "Ann";
                email := "ann@example.com"; storageGB := x |} in
  let s x := {| users := [u x]; payments := []; next_oid := 1%N |} in
  keeps_documents (s 0%float) (s 7%float)
  ∧ (length (users (s 0%float)) ≤ length (users (s 7%float)))%nat
  ∧ (length (payments (s 0%float)) ≤ length (payments (s 7%float)))%nat.
Proof.
  intros u s.
  apply (nothing_is_deleted
           [PUT_user_storage "u1" (storage_body 7);
            GET_payments insertion_order] (s 0%float) (s 7%float)
           [storage_updated (u 7%float); payments_listed []]).
  reflexivity.
Defined.

(** ** Edge cases of the checks *)

(** X10.  [POST /api/users] rejects a [uid] or an [email] that is present
    but falsy (null, false, 0 or the empty string) just as it rejects a
    missing one: the answer is 400 and the database is as before. *)
Theorem create_user_falsy_field (body : jsobj) (s : db) (v : jsval) :
  v ∈ [JNull; JBool false; JNum 0; JStr ""; JUndefined] →
  get "uid" body = v ∨ get "email" body = v →
  post_api_users body s = Return user_rejected s.
Proof.
  intros Hv H. apply post_users_rejected.
  assert (Hf : truthy v = false).
  { repeat (apply elem_of_cons in Hv as [->|Hv]; [done|]).
    by apply elem_of_nil in Hv. }
  destruct H as [-> | ->]; rewrite Hf; [done|apply andb_false_r].
Qed.

Lemma create_user_falsy_field_witness :
  post_api_users [("uid", JNum 0); ("email", JStr "ann@example.com")] empty_db
  = Return user_rejected empty_db.
Proof.
  apply (create_user_falsy_field _ _ (JNum 0)).
  - apply elem_of_cons. right. apply elem_of_cons. right.
    apply elem_of_cons. by left.
  - by left.
Defined.

(** X17.  A delta of 0 is a number, so the storage check lets it through
    although 0 is falsy: the adjustment answers 200 with the stored
    record and the database is as before.  (The counter is taken not to
    be the negative zero, which no sum of a positive zero makes and which
    adding 0 turns into 0.) *)
Theorem adjust_storage_by_zero_delta (s : db) (i : nat) (u : user)
    (body : jsobj) :
  NoDup (uid <$> users s) → users s !! i = Some u →
  storageGB u ≠ (-0)%float →
  get "storageGB" body = JNum 0 →
  truthy (get "storageGB" body) = false
  ∧ put_api_users_uid_storage (uid u) body s = Return (storage_updated u) s.
Proof.
  intros Hnd Hu Hz Hd. split; [by rewrite Hd|].
  rewrite (put_storage_hit i u 0 body s Hnd Hu Hd).
  rewrite inc_storageGB_0 by done. by rewrite set_users_insert_id.
Qed.

Lemma adjust_storage_by_zero_delta_witness :
  let u := {| user_id := 0%N; uid := "u1"; name := Some "Ann";
              email := "ann@example.com"; storageGB := 4 |} in
  let s := {| users := [u]; payments := []; next_oid := 1%N |} in
  truthy (get "storageGB" (storage_body 0)) = false
  ∧ put_api_users_uid_storage "u1" (storage_body 0) s
    = Return (storage_updated u) s.
Proof.
  intros u s. apply (adjust_storage_by_zero_delta s 0 u).
  - apply NoDup_singleton.
  - reflexivity.
  - simpl. intros H. discriminate (f_equal Prim2SF H).
  - reflexivity.
Defined.

(** X18.  When the four fields of a payment pass the truthiness check of
    the handler but the schema refuses one (a [gb] such as "5abc" that
    denotes no number, an array, an object without [_id]), [save()]
    rejects the document: the answer is 500 with the validation error
    that names the refused paths, not 400, and neither collection
    changes. *)
Theorem create_payment_refused_by_schema (now : Z) (body : jsobj) (s : db) :
  passes_handler_check body = true →
  covered (POST_payments now body) = true →
  passes_schema body = false →
  ∃ paths s',
    post_api_payments now body s
    = Return {| code := 500;
                body := JError (Message (ValidationError paths)) |} s'
    ∧ paths ≠ []
    ∧ (∀ path, path ∈ paths
               ↔ path ∈ Payment.invalid (payment_draft 0%N 0 body))
    ∧ users s' = users s ∧ payments s' = payments s.
Proof.
  intros Hh Hc Hv. unfold passes_schema in Hv. simpl in Hc.
  unfold passes_handler_check in Hh. rewrite Hh in Hc. simpl in Hc.
  rewrite Hc in Hv. simpl in Hv. apply bool_decide_eq_false in Hv.
  apply andb_prop in Hc as [Hg Ht]. apply negb_true_iff in Hg, Ht.
  unfold post_api_payments.
  replace (_ || _ || _ || _) with false
    by (by destruct (truthy (get "userId" body)), (truthy (get "gb" body)),
          (truthy (get "totalPrice" body)), (truthy (get "upiLink" body))).
  unfold Payment.new, Payment.save. unfold_M. simpl.
  rewrite !castString_not_beyond, Hg, Ht. simpl.
  change (Payment.invalid _) with (Payment.invalid (payment_draft 0%N 0 body)).
  destruct (Payment.invalid (payment_draft 0%N 0 body)) as [|path paths];
    [done|].
  by exists (path :: paths), (with_oid_drawn s).
Qed.

Lemma create_payment_refused_by_schema_witness :
  let body := [("userId", JStr "u1"); ("gb", JStr "5abc");
               ("totalPrice", JArr [JNum 100]); ("upiLink", JStr "upi://x")] in
  ∃ paths s',
    post_api_payments 1700000000000 body empty_db
    = Return {| code := 500;
                body := JError (Message (ValidationError paths)) |} s'
    ∧ paths ≠ []
    ∧ (∀ path, path ∈ paths
               ↔ path ∈ Payment.invalid (payment_draft 0%N 0 body))
    ∧ users s' = users empty_db ∧ payments s' = payments empty_db.
Proof.
  intros body.
  apply (create_payment_refused_by_schema 1700000000000 body empty_db);
    reflexivity.
Defined.

(** ** How updates compose *)

(** X13.  Status updates of one payment overwrite each other: after two
    updates the payment has the second status and the database is the
    one a single update to the second status gives. *)
Theorem status_last_write_wins (s : db) (i : nat) (p : payment)
    (id st1 st2 : string) :
  NoDup (payment_id <$> payments s) → payments s !! i = Some p →
  castObjectId id = Cast (payment_id p) →
  serve [PUT_payment id (status_body st1); PUT_payment id (status_body st2)] s
  = Some ([payment_updated (set_status (Some st1) p);
           payment_updated (set_status (Some st2) p)],
          set_payments (λ docs, <[i := set_status (Some st2) p]> docs) s)
  ∧ serve [PUT_payment id (status_body st2)] s
    = Some ([payment_updated (set_status (Some st2) p)],
            set_payments (λ docs, <[i := set_status (Some st2) p]> docs) s).
Proof.
  intros Hnd Hi Hid.
  assert (Hone : ∀ st, put_api_payments_id id (status_body st) s
            = Return (payment_updated (set_status (Some st) p))
                (set_payments (λ docs, <[i := set_status (Some st) p]> docs)
                   s)).
  { intros st. by apply put_payment_hit. }
  split; cbn [serve handle]; rewrite Hone; [|done].
  set (p1 := set_status (Some st1) p).
  set (s1 := set_payments (λ docs, <[i := p1]> docs) s).
  assert (Hi1 : payments s1 !! i = Some p1).
  { apply list_lookup_insert_eq. by eapply lookup_lt_Some. }
  assert (Hnd1 : NoDup (payment_id <$> payments s1)).
  { unfold s1. simpl. by rewrite (fmap_insert_same_key payment_id _ _ p p1). }
  rewrite (put_payment_hit i p1 id st2 (status_body st2) s1 Hnd1 Hi1 Hid eq_refl).
  unfold payment_updated, s1, set_payments. simpl.
  by rewrite list_insert_insert_eq.
Qed.

Lemma status_last_write_wins_witness :
  let p st := {| payment_id := 10%N; userId := "u1"; gb := 5;
                 totalPrice := 100; upiLink := "upi://x"; status := st;
                 createdAt := 1700000000000 |} in
  let s st := {| users := []; payments := [p st]; next_oid := 11%N |} in
  serve [PUT_payment "00000000000000000000000a" (status_body "FAILED");
         PUT_payment "00000000000000000000000a" (status_body "SUCCESS")]
    (s (Some "PENDING"))
  = Some ([payment_updated (p (Some "FAILED"));
           payment_updated (p (Some "SUCCESS"))], s (Some "SUCCESS")).
Proof.
  intros p s.
  destruct (status_last_write_wins (s (Some "PENDING")) 0 (p (Some "PENDING"))
              "00000000000000000000000a" "FAILED" "SUCCESS") as [H _].
  - apply NoDup_singleton.
  - reflexivity.
  - reflexivity.
  - exact H.
Defined.

(** X14.  A status update changes nothing but the [status] of the payment
    it addresses: the users and the number of payments are as before,
    every payment with another identifier is untouched, and the addressed
    payment keeps its place and all its other fields. *)
Theorem update_payment_frame (s s' : db) (id : string) (body : jsobj)
    (resp : response) :
  put_api_payments_id id body s = Return resp s' →
  users s' = users s
  ∧ length (payments s') = length (payments s)
  ∧ (∀ j p, payments s !! j = Some p →
       castObjectId id ≠ Cast (payment_id p) → payments s' !! j = Some p)
  ∧ (∀ j p, payments s !! j = Some p →
       ∃ p', payments s' !! j = Some p' ∧ same_payment_but_status p p').
Proof.
  intros H.
  assert (Hk : keeps_documents s s').
  { by apply (handle_keeps_documents (PUT_payment id body) s s' resp). }
  split_and!; [| | |apply Hk].
  all: route_paths; try done.
  - by rewrite length_insert.
  - match goal with
    | Hf : list_find _ _ = Some _ |- _ =>
        apply list_find_Some in Hf as (Hi & Hid & _)
    end.
    intros j q Hj Hne. rewrite list_lookup_insert_ne; [done|].
    intros <-. congruence.
Qed.

Lemma update_payment_frame_witness :
  let p1 st := {| payment_id := 10%N; userId := "u1"; gb := 5;
                  totalPrice := 100; upiLink := "upi://x"; status := st;
                  createdAt := 1700000000000 |} in
  let p2 := {| payment_id := 11%N; userId := "u2"; gb := 1; totalPrice := 20;
               upiLink := "upi://y"; status := Some "PENDING";
               createdAt := 1700000000001 |} in
  let s st := {| users := []; payments := [p1 st; p2]; next_oid := 12%N |} in
  users (s (Some "SUCCESS")) = users (s (Some "PENDING"))
  ∧ length (payments (s (Some "SUCCESS")))
    = length (payments (s (Some "PENDING")))
  ∧ (∀ j p, payments (s (Some "PENDING")) !! j = Some p →
       castObjectId "00000000000000000000000a" ≠ Cast (payment_id p) →
       payments (s (Some "SUCCESS")) !! j = Some p)
  ∧ (∀ j p, payments (s (Some "PENDING")) !! j = Some p →
       ∃ p', payments (s (Some "SUCCESS")) !! j = Some p'
             ∧ same_payment_but_status p p').
Proof.
  intros p1 p2 s.
  apply (update_payment_frame (s (Some "PENDING")) (s (Some "SUCCESS"))
           "00000000000000000000000a" (status_body "SUCCESS")
           (payment_updated (p1 (Some "SUCCESS")))).
  reflexivity.
Defined.

(** X16.  A route reads only its own collection.  The payment routes
    answer the same whatever the users are (the [userId] of a payment is
    not looked up among them), and the user routes answer the same
    whatever the payments are. *)
Theorem routes_read_own_collection (r : request) (s : db) :
  (∀ us, payment_route r = true →
     handle r (set_users (λ _, us) s)
     = outcome_map (set_users (λ _, us)) (handle r s))
  ∧ (∀ ps, user_route r = true →
       handle r (set_payments (λ _, ps) s)
       = outcome_map (set_payments (λ _, ps)) (handle r s)).
Proof.
  split; intros l Hr; destruct r; try discriminate Hr; clear Hr.
  all: unfold_routes; simpl; repeat (case_match; simplify_eq/=); done.
Qed.

Lemma routes_read_own_collection_witness :
  let body := [("userId", JStr "nobody"); ("gb", JNum 5);
               ("totalPrice", JNum 100); ("upiLink", JStr "upi://x")] in
  let u := {| user_id := 0%N; uid := "u1"; name := Some "Ann";
              email := "ann@example.com"; storageGB := 4 |} in
  let s := {| users := []; payments := []; next_oid := 1%N |} in
  post_api_payments 1700000000000 body (set_users (λ _, [u]) s)
  = outcome_map (set_users (λ _, [u])) (post_api_payments 1700000000000 body s).
Proof.
  intros body u s.
  destruct (routes_read_own_collection (POST_payments 1700000000000 body) s)
    as [H _].
  by apply (H [u]).
Defined.
